(** * oniongen: a shallow embedding of [oniongen.c]

    The program brute-forces an RSA key whose hidden-service identifier
    starts with a given pattern.  This file embeds the functions of
    [oniongen.c] and proves what they compute.

    Conventions of the embedding:
    - a [char] is an [ascii] (eight bits); [uchar] is its value as
      [unsigned char]/[uint8_t], [schar] its value as plain [char] on the
      platform the program targets (Linux, where [char] is signed);
    - an array of [char] is a [list ascii]; a read or a write outside the
      array is [Undef];
    - a [const char *] used as a string is a [list ascii] followed by an
      implicit terminating NUL: [strlen] is the offset of the first NUL;
    - [size_t] is 64 bits wide, [unsigned int] 32 bits, [uint8_t] 8 bits,
      and their arithmetic wraps;
    - the program is built without [NDEBUG]: a failed [assert] ends the
      run, which is [Abort], tagged with the assertion that failed;
    - OpenSSL ([RSA_generate_key], [i2d_RSAPublicKey], [SHA1],
      [PEM_write_RSAPrivateKey]), the file system ([mkdir], [fopen]) and
      the allocator ([malloc]) are parameters of the development. *)

From Stdlib Require Import ZArith Lia Ascii String Bool.
From stdpp Require Import base tactics option list.

Local Open Scope Z_scope.

(** ** Outcomes of a C call *)

(** The assertions of [oniongen.c], named after the condition they check. *)
Inductive assertion : Set :=
| assert_pattern_is_not_too_long     (* generate_service, line 93 *)
| assert_pattern_has_valid_chars     (* generate_service, line 94 *)
| assert_private_key_not_null        (* generate_service, line 100 *)
| assert_rend_get_service_id         (* generate_service, line 103 *)
| assert_has_valid_chars_precond     (* pattern_has_valid_chars, line 121 *)
| assert_crypto_pk_get_digest        (* rend_get_service_id, line 173 *)
| assert_i2d_len_first               (* crypto_pk_get_digest, line 184 *)
| assert_i2d_len_second              (* crypto_pk_get_digest, line 189 *)
| assert_crypto_digest               (* crypto_pk_get_digest, line 191 *)
| assert_nbits_multiple_of_5         (* base32_encode, line 208 *)
| assert_enough_space                (* base32_encode, line 209 *)
| assert_mkdir                       (* export_private_key, line 145 *)
| assert_file_relpath_not_null       (* export_private_key, line 149 *)
| assert_pem_file_not_null           (* export_private_key, line 155 *)
| assert_PEM_write.                  (* export_private_key, lines 157-158 *)

Inductive outcome (A : Type) : Type :=
| Ret (a : A)                (* the call returns [a] *)
| Abort (which : assertion)  (* an [assert] failed: the process aborts *)
| Undef                      (* access outside an array *)
| Fuel.                      (* the model's iteration budget ran out *)

Arguments Ret {A} a.
Arguments Abort {A} which.
Arguments Undef {A}.
Arguments Fuel {A}.

#[global] Instance outcome_ret : MRet outcome := @Ret.

#[global] Instance outcome_bind : MBind outcome := fun A B k m =>
  match m with
  | Ret a => k a
  | Abort w => Abort w
  | Undef => Undef
  | Fuel => Fuel
  end.

Definition assert (which : assertion) (cond : bool) : outcome unit :=
  if cond then Ret tt else Abort which.

(** ** Machine integers *)

Definition size_t (x : Z) : Z := x mod 2 ^ 64.
Definition uint (x : Z) : Z := x mod 2 ^ 32.
Definition uint8_t (x : Z) : Z := x mod 2 ^ 8.

Definition UINT_MAX : Z := 2 ^ 32 - 1.

(** ** Characters, arrays and strings *)

Definition NUL : ascii := Ascii.zero.

(** The value of a [char] converted to [uint8_t]. *)
Definition uchar (c : ascii) : Z := Z.of_N (N_of_ascii c).

(** The value of a plain (signed) [char] promoted to [int]. *)
Definition schar (c : ascii) : Z :=
  if uchar c <? 128 then uchar c else uchar c - 256.

(** [buf[i]] as an rvalue. *)
Definition read (buf : list ascii) (i : Z) : outcome ascii :=
  if i <? 0 then Undef
  else match buf !! Z.to_nat i with
       | Some c => Ret c
       | None => Undef
       end.

(** [buf[i] = c]. *)
Definition write (buf : list ascii) (i : Z) (c : ascii) : outcome (list ascii) :=
  if (0 <=? i) && (i <? Z.of_nat (length buf))
  then Ret (<[Z.to_nat i := c]> buf)
  else Undef.

(** A string literal, as the characters before its terminator. *)
Definition lit (s : string) : list ascii := list_ascii_of_string s.

(** [s[i]] for a string: the characters of [s], then its terminator. *)
Definition char_at (s : list ascii) (i : Z) : ascii :=
  nth (Z.to_nat i) s NUL.

(** The characters of a string, up to its terminator. *)
Fixpoint c_str (s : list ascii) : list ascii :=
  match s with
  | [] => []
  | c :: s' => if Ascii.eqb c NUL then [] else c :: c_str s'
  end.

(** [strlen(3)]. *)
Fixpoint strlen (s : list ascii) : Z :=
  match s with
  | [] => 0
  | c :: s' => if Ascii.eqb c NUL then 0 else 1 + strlen s'
  end.

(** [strncmp(3)]: compares at most [n] characters and stops after a NUL. *)
Fixpoint strncmp (s1 s2 : list ascii) (n : nat) : Z :=
  match n with
  | O => 0
  | S n' =>
      let c1 := hd NUL s1 in
      let c2 := hd NUL s2 in
      if negb (Ascii.eqb c1 c2) then uchar c1 - uchar c2
      else if Ascii.eqb c1 NUL then 0
      else strncmp (tl s1) (tl s2) n'
  end.

(** [islower(3)] in the "C" locale, the locale of a program that never
    calls [setlocale]. *)
Definition islower (c : Z) : bool := (97 <=? c) && (c <=? 122).

(** ** Constants of [oniongen.c] *)

Definition REND_SERVICE_ID_LEN_BASE32 : Z := 16.
Definition REND_SERVICE_ID_LEN : Z := 10.
Definition DIGEST_LEN : Z := 20.

Definition BASE32_CHARS : list ascii := lit "abcdefghijklmnopqrstuvwxyz234567".

(** ** Pattern validation *)

(** [pattern_is_not_too_long], lines 112-115. *)
Definition pattern_is_not_too_long (pattern : list ascii) : bool :=
  strlen pattern <=? REND_SERVICE_ID_LEN_BASE32.

(** The [for] loop of [pattern_has_valid_chars], lines 124-129, entered
    with the counter at [i]. *)
Fixpoint pattern_has_valid_chars_loop (fuel : nat) (pattern : list ascii)
    (i : Z) : outcome bool :=
  match fuel with
  | O => Fuel
  | S fuel' =>
      if i <? strlen pattern then
        if negb (islower (schar (char_at pattern i))
                 || ((2 <=? schar (char_at pattern i))
                     && (schar (char_at pattern i) <=? 7)))
        then Ret false
        else pattern_has_valid_chars_loop fuel' pattern (uint8_t (i + 1))
      else Ret true
  end.

(** [pattern_has_valid_chars], lines 118-132.  The counter is a [uint8_t]:
    it takes at most 256 values, so 257 iterations are enough for every
    run of the loop that ends. *)
Definition pattern_has_valid_chars (pattern : list ascii) : outcome bool :=
  assert assert_has_valid_chars_precond (pattern_is_not_too_long pattern) ;;
  pattern_has_valid_chars_loop 257 pattern 0.

(** The validation at the head of [generate_service], lines 92-94. *)
Definition validate_pattern (pattern : list ascii) : outcome unit :=
  assert assert_pattern_is_not_too_long (pattern_is_not_too_long pattern) ;;
  valid ← pattern_has_valid_chars pattern ;
  assert assert_pattern_has_valid_chars valid.

(** The two ways validation fails, under the names of the specification. *)
Definition TooLong : outcome unit := Abort assert_pattern_is_not_too_long.
Definition InvalidCharacter : outcome unit := Abort assert_pattern_has_valid_chars.

(** [pattern_matches_service_id], lines 164-166. *)
Definition pattern_matches_service_id (pattern service_id : list ascii) : bool :=
  strncmp pattern service_id (Z.to_nat (strlen pattern)) =? 0.

(** ** The base32 encoder *)

(** The [for] loop of [base32_encode], lines 211-218, entered with the
    counters at [i] and [bit]; returns the final [i] and the array. *)
Fixpoint base32_encode_loop (fuel : nat) (src : list ascii) (nbits : Z)
    (i bit : Z) (dest : list ascii) : outcome (Z * list ascii) :=
  match fuel with
  | O => Fuel
  | S fuel' =>
      if bit <? nbits then
        hi ← read src (bit / 8) ;
        let v := uint (Z.shiftl (uchar hi) 8) in
        v ← (if size_t (bit + 5) <? nbits
             then lo ← read src (size_t (bit / 8 + 1)) ; Ret (uint (v + uchar lo))
             else Ret v) ;
        let u := Z.land (Z.shiftr v (11 - bit mod 8)) 0x1F in
        c ← read BASE32_CHARS u ;
        dest ← write dest i c ;
        base32_encode_loop fuel' src nbits (uint (i + 1)) (size_t (bit + 5)) dest
      else Ret (i, dest)
  end.

(** [base32_encode], lines 202-220: returns the array [dest] after the
    call.  The loop adds 5 to [bit] while [bit < nbits], so it ends within
    [nbits / 5 + 1] tests of its condition unless [bit] wraps around. *)
Definition base32_encode (dest : list ascii) (destlen : Z)
    (src : list ascii) (srclen : Z) : outcome (list ascii) :=
  let nbits := size_t (srclen * 8) in
  assert assert_nbits_multiple_of_5 (nbits mod 5 =? 0) ;;
  assert assert_enough_space (nbits / 5 + 1 <=? destlen) ;;
  '(i, dest) ← base32_encode_loop (S (Z.to_nat (nbits / 5))) src nbits 0 0 dest ;
  write dest i NUL.

(** ** Exporting the key to a file *)

(** [strcpy(3)] into the array [dest]: the characters of [src] and a
    terminator, from the start of [dest]. *)
Definition strcpy (dest src : list ascii) : outcome (list ascii) :=
  let s := c_str src ++ [NUL] in
  if (length s <=? length dest)%nat
  then Ret (s ++ drop (length s) dest)
  else Undef.

(** [strcat(3)] onto the array [dest], which must hold a string: the
    characters of [src] and a terminator, from the terminator of [dest]. *)
Definition strcat (dest src : list ascii) : outcome (list ascii) :=
  let n := Z.to_nat (strlen dest) in
  let s := c_str src ++ [NUL] in
  if (n <? length dest)%nat && (n + length s <=? length dest)%nat
  then Ret (take n dest ++ s ++ drop (n + length s) dest)
  else Undef.

Module FileSystem.

(** How a call of [export_private_key] ends: the key written to a file
    opened under a path, a failed assertion, or an access outside the
    allocated block. *)
Inductive result (FILE : Type) : Type :=
| Written (path : list ascii) (pem_file : FILE)
| Aborted (which : assertion)
| OutOfBounds.

Arguments Written {FILE} path pem_file.
Arguments Aborted {FILE} which.
Arguments OutOfBounds {FILE}.

Section ExportKey.

Variables RSA FILE : Type.

(** [mkdir(path, S_IRWXU)]: the value returned for a path. *)
Variable mkdir : list ascii -> Z.

(** [malloc(size)]: [None] for NULL, else a block whose first [size]
    characters, unspecified, are the ones allocated. *)
Variable malloc : Z -> option (list ascii).

(** [fopen(path, "w")]: [None] for NULL. *)
Variable fopen : list ascii -> option FILE.

(** [PEM_write_RSAPrivateKey(file, key, NULL, NULL, 0, NULL, NULL)]. *)
Variable PEM_write_RSAPrivateKey : FILE -> RSA -> Z.

(** [export_private_key], lines 136-162, with the file system and the
    allocator as parameters. *)
Definition export_private_key (private_key : RSA) (pattern : list ascii)
    : result FILE :=
  let file_path := lit "/private_key" in
  if negb (mkdir (c_str pattern) =? 0) then Aborted assert_mkdir else
  let size := size_t (strlen pattern + 13) in
  match malloc size with
  | None => Aborted assert_file_relpath_not_null
  | Some block =>
      let file_relpath := resize (Z.to_nat size) NUL block in
      match (file_relpath ← strcpy file_relpath pattern ;
             strcat file_relpath file_path) with
      | Ret file_relpath =>
          match fopen (c_str file_relpath) with
          | None => Aborted assert_pem_file_not_null
          | Some pem_file =>
              if negb (PEM_write_RSAPrivateKey pem_file private_key =? 1)
              then Aborted assert_PEM_write
              else Written (c_str file_relpath) pem_file
          end
      | _ => OutOfBounds
      end
  end.

End ExportKey.

End FileSystem.

(** ** Deriving the service identifier, searching, and [main] *)

Section OpenSSL.

(** The OpenSSL type [RSA] of a key pair. *)
Variable RSA : Type.

(** [RSA_generate_key(KEYSIZE, PUBLIC_EXPONENT, NULL, NULL)]: the result
    of the n-th call of the run, [None] for NULL. *)
Variable RSA_generate_key : nat -> option RSA.

(** [i2d_RSAPublicKey]: the DER encoding of the public part of a key,
    [None] where the C function returns a negative length. *)
Variable i2d_RSAPublicKey : RSA -> option (list ascii).

(** [SHA1]: the digest of a message, [None] for NULL. *)
Variable SHA1 : list ascii -> option (list ascii).

(** The type [FILE] and the functions [export_private_key] calls, as in
    [FileSystem]. *)
Variable FILE : Type.
Variable mkdir : list ascii -> Z.
Variable malloc : Z -> option (list ascii).
Variable fopen : list ascii -> option FILE.
Variable PEM_write_RSAPrivateKey : FILE -> RSA -> Z.

(** The [int] that [i2d_RSAPublicKey] returns. *)
Definition i2d_RSAPublicKey_len (pk : RSA) : Z :=
  match i2d_RSAPublicKey pk with
  | Some der => Z.of_nat (length der)
  | None => -1
  end.

(** [crypto_digest], lines 198-200: the truth value returned and the
    array [digest] after the call. *)
Definition crypto_digest (digest m : list ascii) (len : Z)
    : bool * list ascii :=
  match SHA1 (take (Z.to_nat len) m) with
  | Some d => (true, d ++ drop (length d) digest)
  | None => (false, digest)
  end.

(** [crypto_pk_get_digest], lines 179-196. *)
Definition crypto_pk_get_digest (pk : RSA) (digest_out : list ascii)
    : outcome (bool * list ascii) :=
  let len := i2d_RSAPublicKey_len pk in
  assert assert_i2d_len_first (0 <=? len) ;;
  (* [malloc(len+1)] bytes, of which the second call fills [len]; the
     spare byte is never read *)
  let buf := default [] (i2d_RSAPublicKey pk) in
  let len := i2d_RSAPublicKey_len pk in
  assert assert_i2d_len_second (0 <=? len) ;;
  let '(ok, digest_out) := crypto_digest digest_out buf len in
  assert assert_crypto_digest ok ;;
  Ret (true, digest_out).

(** [rend_get_service_id], lines 170-177.  The local array [buf] of
    [DIGEST_LEN] characters starts with unspecified contents [buf0]. *)
Definition rend_get_service_id (buf0 : list ascii) (pk : RSA)
    (out : list ascii) : outcome (bool * list ascii) :=
  '(ok, buf) ← crypto_pk_get_digest pk buf0 ;
  assert assert_crypto_pk_get_digest ok ;;
  out ← base32_encode out (REND_SERVICE_ID_LEN_BASE32 + 1) buf
          REND_SERVICE_ID_LEN ;
  Ret (true, out).

(** The service identifier of a key: the string [rend_get_service_id]
    leaves in a fresh array, if it returns. *)
Definition identifier_of (pk : RSA) : option (list ascii) :=
  match rend_get_service_id (replicate 20 NUL) pk (replicate 17 NUL) with
  | Ret (_, out) => Some (c_str out)
  | _ => None
  end.

(** What the run has done to the outside world: how many keys it has
    asked OpenSSL for, and the keys it has written to a file, with the
    pattern that names the directory of the file. *)
Record world : Type := World {
  keys_generated : nat;
  exported : list (RSA * list ascii)
}.

(** The [do ... while] loop of [generate_service], lines 97-104: returns
    the key the loop ends with. *)
Fixpoint generate_service_loop (fuel : nat) (buf0 : list ascii)
    (pattern service_id : list ascii) (w : world) : outcome (RSA * world) :=
  match fuel with
  | O => Fuel
  | S fuel' =>
      let private_key := RSA_generate_key (keys_generated w) in
      let w := World (S (keys_generated w)) (exported w) in
      match private_key with
      | None => Abort assert_private_key_not_null
      | Some private_key =>
          '(ok, service_id) ← rend_get_service_id buf0 private_key service_id ;
          assert assert_rend_get_service_id ok ;;
          if negb (pattern_matches_service_id pattern service_id)
          then generate_service_loop fuel' buf0 pattern service_id w
          else Ret (private_key, w)
      end
  end.

(** [generate_service], lines 85-109.  The local array [service_id] of
    [REND_SERVICE_ID_LEN_BASE32 + 1] characters starts with unspecified
    contents [service_id0].  The call of [export_private_key] on line 108
    ends the run where one of its assertions fails; where it returns,
    the key is on file. *)
Definition generate_service (fuel : nat) (buf0 service_id0 : list ascii)
    (pattern : list ascii) (w : world) : outcome world :=
  validate_pattern pattern ;;
  '(private_key, w) ← generate_service_loop fuel buf0 pattern service_id0 w ;
  match FileSystem.export_private_key RSA FILE mkdir malloc fopen
          PEM_write_RSAPrivateKey private_key pattern with
  | FileSystem.Written path pem_file =>
      Ret (World (keys_generated w) (exported w ++ [(private_key, pattern)]))
  | FileSystem.Aborted which => Abort which
  | FileSystem.OutOfBounds => Undef
  end.

(** [main], lines 74-80: the exit status and the world after the run. *)
Definition main (fuel : nat) (buf0 service_id0 : list ascii)
    (argc : Z) (argv : list (list ascii)) (w : world) : outcome (Z * world) :=
  if argc =? 2 then
    match argv !! 1%nat with
    | Some pattern =>
        w ← generate_service fuel buf0 service_id0 pattern w ;
        Ret (0, w)
    | None => Undef
    end
  else Ret (0, w).

End OpenSSL.

Arguments World {RSA} _ _.
Arguments keys_generated {RSA} _.
Arguments exported {RSA} _.
Arguments i2d_RSAPublicKey_len {RSA} _ _.
Arguments crypto_pk_get_digest {RSA} _ _ _ _.
Arguments rend_get_service_id {RSA} _ _ _ _ _.
Arguments identifier_of {RSA} _ _ _.
Arguments generate_service_loop {RSA} _ _ _ _ _ _ _ _.
Arguments generate_service {RSA} _ _ _ {FILE} _ _ _ _ _ _ _ _ _.
Arguments main {RSA} _ _ _ {FILE} _ _ _ _ _ _ _ _ _ _.

(** ** Vocabulary of the properties *)

(** The test the loop of [pattern_has_valid_chars] applies to a character:
    a lowercase letter, or a character whose code is between 2 and 7. *)
Definition accepted_char (c : ascii) : bool :=
  islower (schar c) || ((2 <=? schar c) && (schar c <=? 7)).

(** The characters the specification allows in a pattern: a lowercase
    letter or a digit from 2 to 7. *)
Definition base32_char (c : ascii) : bool :=
  ((uchar "a" <=? uchar c) && (uchar c <=? uchar "z"))
  || ((uchar "2" <=? uchar c) && (uchar c <=? uchar "7")).

(** The encoding as the specification words it: the source is a stream
    of bits, each character most significant bit first; the stream is cut
    into windows of 5 bits at offsets 0, 5, 10, ..., padded with zero bits
    past the end; each window is a number that indexes the alphabet. *)
Definition bits_of_char (c : ascii) : list bool :=
  let 'Ascii b0 b1 b2 b3 b4 b5 b6 b7 := c in [b7; b6; b5; b4; b3; b2; b1; b0].

Definition bitstream (src : list ascii) : list bool :=
  concat (map bits_of_char src).

Definition bits_value (bits : list bool) : Z :=
  foldl (fun acc b => 2 * acc + Z.b2z b) 0 bits.

Definition window (src : list ascii) (k : nat) : list bool :=
  resize 5 false (drop (5 * k) (bitstream src)).

Definition window_char (src : list ascii) (k : nat) : ascii :=
  nth (Z.to_nat (bits_value (window src k))) BASE32_CHARS NUL.

(** The arithmetic of lines 213-216 on the characters [hi] and [lo] at
    bit offset [r] within [hi]. *)
Definition shift_and_mask (hi lo : ascii) (r : Z) : Z :=
  Z.land (Z.shiftr (uint (uint (Z.shiftl (uchar hi) 8) + uchar lo))
                   (11 - r)) 0x1F.

Definition shift_and_mask_ok (hi lo : ascii) (r : nat) : bool :=
  shift_and_mask hi lo (Z.of_nat r)
  =? bits_value (take 5 (drop r (bits_of_char hi ++ bits_of_char lo))).

(** A property of all 256 characters, decided by trying each. *)
Definition forall_ascii (P : ascii -> bool) : bool :=
  forallb P (map ascii_of_nat (seq 0 256)).

(** * Properties *)

(** ** Strings *)

Lemma uchar_range (c : ascii) : 0 <= uchar c < 256.
Proof.
  unfold uchar. pose proof (N_ascii_bounded c). lia.
Qed.

Lemma uchar_inj (c1 c2 : ascii) : uchar c1 = uchar c2 -> c1 = c2.
Proof.
  unfold uchar. intros H.
  rewrite <- (ascii_N_embedding c1), <- (ascii_N_embedding c2).
  f_equal. lia.
Qed.

Lemma strlen_c_str (s : list ascii) : strlen s = Z.of_nat (length (c_str s)).
Proof.
  induction s as [|c s IH]; simpl; [done|].
  destruct (Ascii.eqb c NUL); simpl; lia.
Qed.

Lemma strlen_nonneg (s : list ascii) : 0 <= strlen s.
Proof. rewrite strlen_c_str. lia. Qed.

Lemma c_str_no_NUL (s : list ascii) : NUL ∉ c_str s.
Proof.
  induction s as [|c s IH]; simpl; [apply not_elem_of_nil|].
  destruct (Ascii.eqb_spec c NUL) as [->|Hc]; [apply not_elem_of_nil|].
  rewrite not_elem_of_cons. split; [congruence|done].
Qed.

(** Below [strlen s], the string and its characters agree. *)
Lemma char_at_c_str (s : list ascii) (i : nat) :
  (i < length (c_str s))%nat -> c_str s !! i = Some (char_at s (Z.of_nat i)).
Proof.
  unfold char_at. rewrite Nat2Z.id. revert i.
  induction s as [|c s IH]; simpl; intros i Hi; [lia|].
  destruct (Ascii.eqb c NUL); simpl in *; [lia|].
  destruct i as [|i]; simpl; [done|]. apply IH. lia.
Qed.

(** A string that holds no NUL is its own contents. *)
Lemma c_str_id (s : list ascii) : NUL ∉ s -> c_str s = s.
Proof.
  induction s as [|c s IH]; simpl; intros H; [done|].
  rewrite not_elem_of_cons in H. destruct H as [Hc Hs].
  destruct (Ascii.eqb_spec c NUL) as [->|_]; [done|]. by rewrite IH.
Qed.

(** The contents of an array that holds [s], a NUL, and anything after. *)
Lemma c_str_app_NUL (s rest : list ascii) :
  NUL ∉ s -> c_str (s ++ NUL :: rest) = s.
Proof.
  induction s as [|c s IH]; simpl; intros H; [done|].
  rewrite not_elem_of_cons in H. destruct H as [Hc Hs].
  destruct (Ascii.eqb_spec c NUL) as [->|_]; [done|]. by rewrite IH.
Qed.

(** ** Pattern validation *)

(** The loop, started at [i] with enough iterations left and a counter
    that cannot wrap, tests the characters from [i] on. *)
Lemma pattern_has_valid_chars_loop_spec (pattern : list ascii) :
  strlen pattern <= 255 ->
  forall (fuel i : nat),
    (i <= length (c_str pattern))%nat ->
    (length (c_str pattern) - i < fuel)%nat ->
    pattern_has_valid_chars_loop fuel pattern (Z.of_nat i)
    = Ret (forallb accepted_char (drop i (c_str pattern))).
Proof.
  intros Hlen. rewrite strlen_c_str in Hlen.
  induction fuel as [|fuel IH]; intros i Hi Hfuel; [lia|].
  simpl. rewrite strlen_c_str.
  destruct (Z.ltb_spec (Z.of_nat i) (Z.of_nat (length (c_str pattern)))) as [Hlt|Hge].
  - assert (Hc : c_str pattern !! i = Some (char_at pattern (Z.of_nat i)))
      by (apply char_at_c_str; lia).
    rewrite (drop_S _ _ _ Hc). simpl.
    fold (accepted_char (char_at pattern (Z.of_nat i))).
    destruct (accepted_char (char_at pattern (Z.of_nat i))); simpl; [|done].
    replace (uint8_t (Z.of_nat i + 1)) with (Z.of_nat (S i)).
    + apply IH; lia.
    + unfold uint8_t. rewrite Z.mod_small; lia.
  - rewrite drop_ge by lia. done.
Qed.

(** What [pattern_has_valid_chars] returns on a pattern that is not too
    long, and that it aborts on every other pattern. *)
Lemma pattern_has_valid_chars_spec (pattern : list ascii) :
  pattern_has_valid_chars pattern
  = if pattern_is_not_too_long pattern
    then Ret (forallb accepted_char (c_str pattern))
    else Abort assert_has_valid_chars_precond.
Proof.
  unfold pattern_has_valid_chars.
  destruct (pattern_is_not_too_long pattern) eqn:Hlen; [|reflexivity].
  change (pattern_has_valid_chars_loop 257 pattern 0
          = Ret (forallb accepted_char (c_str pattern))).
  unfold pattern_is_not_too_long, REND_SERVICE_ID_LEN_BASE32 in Hlen.
  apply Z.leb_le in Hlen.
  pose proof (pattern_has_valid_chars_loop_spec pattern ltac:(lia) 257 0) as H.
  rewrite drop_0 in H. apply H; [lia|].
  rewrite strlen_c_str in Hlen. lia.
Qed.

(** What the validation of [generate_service] does with a pattern. *)
Lemma validate_pattern_spec (pattern : list ascii) :
  validate_pattern pattern
  = if negb (pattern_is_not_too_long pattern) then TooLong
    else if forallb accepted_char (c_str pattern) then Ret tt
    else InvalidCharacter.
Proof.
  unfold validate_pattern. rewrite pattern_has_valid_chars_spec.
  destruct (pattern_is_not_too_long pattern); simpl; [|done].
  by destruct (forallb accepted_char (c_str pattern)).
Qed.

(** C3 (as the code behaves): the pattern "abc234", whose characters are
    all lowercase letters or digits from 2 to 7, is within the length limit
    and yet [pattern_has_valid_chars] returns false on it, so validation
    fails with InvalidCharacter; the character test compares with the codes
    2 to 7, not with the digits '2' to '7', and accepts the control
    character of code 2 instead. *)
Theorem validate_rejects_base32_digits :
  strlen (lit "abc234") <= 16
  /\ forallb base32_char (lit "abc234") = true
  /\ pattern_has_valid_chars (lit "abc234") = Ret false
  /\ validate_pattern (lit "abc234") = InvalidCharacter
  /\ base32_char "002" = false
  /\ validate_pattern ["002"%char] = Ret tt.
Proof. vm_compute. repeat split; discriminate. Qed.

(** C6: validation fails with TooLong exactly when the pattern is longer
    than 16 characters, the length of a service identifier; and a pattern
    of at most 16 characters passes the length check. *)
Theorem validate_too_long_iff (pattern : list ascii) :
  (validate_pattern pattern = TooLong
   <-> REND_SERVICE_ID_LEN_BASE32 < strlen pattern)
  /\ (pattern_is_not_too_long pattern = true <-> strlen pattern <= 16).
Proof.
  rewrite validate_pattern_spec.
  unfold pattern_is_not_too_long, REND_SERVICE_ID_LEN_BASE32.
  destruct (Z.leb_spec (strlen pattern) 16) as [Hle|Hgt]; simpl.
  - split; [|by split]. split; [|lia].
    by destruct (forallb accepted_char (c_str pattern)).
  - split; [by split|]. split; [done|lia].
Qed.

(** C8 (as stated, refuted): validating "toolongpattern!!" does not fail
    with TooLong. *)
Lemma validate_toolongpattern_not_TooLong :
  validate_pattern (lit "toolongpattern!!") <> TooLong.
Proof. vm_compute. discriminate. Qed.

(** C8 (amended): "toolongpattern!!" has 16 characters, so it passes the
    length check, and its validation fails with InvalidCharacter. *)
Theorem validate_toolongpattern_InvalidCharacter :
  strlen (lit "toolongpattern!!") = 16
  /\ pattern_is_not_too_long (lit "toolongpattern!!") = true
  /\ validate_pattern (lit "toolongpattern!!") = InvalidCharacter.
Proof. vm_compute. done. Qed.

(** C10: [pattern_has_valid_chars] asserts [pattern_is_not_too_long]: on a
    pattern of at most 16 characters the assertion holds and the function
    returns a truth value; on a longer pattern the assertion fails and the
    call aborts. *)
Theorem pattern_has_valid_chars_precondition (pattern : list ascii) :
  (strlen pattern <= 16 ->
   pattern_is_not_too_long pattern = true
   /\ pattern_has_valid_chars pattern
      = Ret (forallb accepted_char (c_str pattern)))
  /\ (16 < strlen pattern ->
      pattern_has_valid_chars pattern = Abort assert_has_valid_chars_precond).
Proof.
  rewrite pattern_has_valid_chars_spec.
  unfold pattern_is_not_too_long, REND_SERVICE_ID_LEN_BASE32.
  destruct (Z.leb_spec (strlen pattern) 16); split; intros; (done || lia).
Qed.

Lemma pattern_has_valid_chars_precondition_witness :
  pattern_has_valid_chars (lit "abc") = Ret true
  /\ pattern_has_valid_chars (lit "abcdefghijklmnopq")
     = Abort assert_has_valid_chars_precond.
Proof.
  split.
  - apply (proj1 (pattern_has_valid_chars_precondition (lit "abc"))).
    vm_compute. discriminate.
  - apply (proj2 (pattern_has_valid_chars_precondition (lit "abcdefghijklmnopq"))).
    vm_compute. reflexivity.
Defined.

(** ** Pattern matching *)

(** [strncmp] over the length of its first argument is 0 exactly when the
    first argument is a prefix of the second. *)
Lemma strncmp_strlen_prefix (pattern : list ascii) :
  forall service_id : list ascii,
    strncmp pattern service_id (Z.to_nat (strlen pattern)) = 0
    <-> take (Z.to_nat (strlen pattern)) (c_str service_id) = c_str pattern.
Proof.
  induction pattern as [|c pattern IH]; intros service_id; simpl; [done|].
  destruct (Ascii.eqb_spec c NUL) as [->|Hc]; simpl; [done|].
  pose proof (strlen_nonneg pattern) as Hlen.
  replace (Z.to_nat (1 + strlen pattern)) with (S (Z.to_nat (strlen pattern)))
    by lia.
  simpl. destruct (Ascii.eqb_spec c (hd NUL service_id)) as [Heq|Hne]; simpl.
  - destruct (Ascii.eqb_spec c NUL) as [?|_]; [done|].
    destruct service_id as [|c' service_id]; simpl in *; [done|]. subst c'.
    destruct (Ascii.eqb_spec c NUL) as [?|_]; [done|]. simpl.
    rewrite IH. split; [congruence|]. by intros [= ->].
  - split.
    + intros H. exfalso. apply Hne, uchar_inj. lia.
    + intros H. exfalso. apply Hne.
      destruct service_id as [|c' service_id]; simpl in *; [done|].
      destruct (Ascii.eqb_spec c' NUL); simpl in *; congruence.
Qed.

(** C4: the matcher returns true exactly when the first [strlen pattern]
    characters of the identifier are the characters of the pattern; the
    empty pattern matches every identifier, "abc" matches
    "abcdefghij234567" and "xyz" does not. *)
Theorem pattern_matches_service_id_prefix :
  (forall pattern service_id : list ascii,
      pattern_matches_service_id pattern service_id = true
      <-> take (Z.to_nat (strlen pattern)) (c_str service_id) = c_str pattern)
  /\ (forall service_id : list ascii,
         pattern_matches_service_id [] service_id = true)
  /\ pattern_matches_service_id (lit "abc") (lit "abcdefghij234567") = true
  /\ pattern_matches_service_id (lit "xyz") (lit "abcdefghij234567") = false
  /\ pattern_matches_service_id (lit "ABC") (lit "abcdefghij234567") = false.
Proof.
  split; [|by vm_compute].
  intros pattern service_id. unfold pattern_matches_service_id.
  rewrite Z.eqb_eq. apply strncmp_strlen_prefix.
Qed.

(** ** The base32 encoder *)

Lemma forall_ascii_spec (P : ascii -> bool) :
  forall_ascii P = true -> forall c, P c = true.
Proof.
  unfold forall_ascii. rewrite forallb_forall. intros H c. apply H.
  rewrite <- (ascii_nat_embedding c). apply in_map, in_seq.
  pose proof (nat_ascii_bounded c). lia.
Qed.

(** Read most significant bit first, a character is its [uint8_t] value. *)
Lemma bits_value_char (c : ascii) : bits_value (bits_of_char c) = uchar c.
Proof.
  apply Z.eqb_eq. revert c. apply forall_ascii_spec. by vm_compute.
Qed.

(** The shift and mask extract the 5 bits at offset [r] of two adjacent
    characters: checked on all characters and offsets. *)
Lemma shift_and_mask_window (hi lo : ascii) (r : nat) :
  (r < 8)%nat ->
  shift_and_mask hi lo (Z.of_nat r)
  = bits_value (take 5 (drop r (bits_of_char hi ++ bits_of_char lo))).
Proof.
  intros Hr. apply Z.eqb_eq. change (shift_and_mask_ok hi lo r = true).
  assert (H : forall_ascii (fun hi => forall_ascii (fun lo =>
                forallb (shift_and_mask_ok hi lo) (seq 0 8))) = true)
    by (by vm_compute).
  pose proof (forall_ascii_spec _ (forall_ascii_spec _ H hi) lo) as Hall.
  rewrite forallb_forall in Hall. apply Hall, in_seq. lia.
Qed.

Lemma bits_of_char_length (c : ascii) : length (bits_of_char c) = 8%nat.
Proof. by destruct c. Qed.

Lemma bitstream_cons (c : ascii) (src : list ascii) :
  bitstream (c :: src) = bits_of_char c ++ bitstream src.
Proof. done. Qed.

Lemma bitstream_length (src : list ascii) :
  length (bitstream src) = (8 * length src)%nat.
Proof.
  induction src as [|c src IH]; [done|].
  rewrite bitstream_cons, length_app, bits_of_char_length, IH. simpl. lia.
Qed.

Lemma bitstream_drop (src : list ascii) :
  forall q : nat, drop (8 * q) (bitstream src) = bitstream (drop q src).
Proof.
  induction src as [|c src IH]; intros q.
  - rewrite (drop_nil q). change (bitstream []) with (@nil bool).
    apply drop_nil.
  - destruct q as [|q]; [done|].
    replace (8 * S q)%nat with (length (bits_of_char c) + 8 * q)%nat
      by (rewrite bits_of_char_length; lia).
    rewrite bitstream_cons, drop_app_add'; [|done]. apply IH.
Qed.

(** The window at offset [5 * k] lies in the character [hi] at index
    [5 * k / 8] and, when it crosses into it, the next character. *)
Lemma window_two_chars (src : list ascii) (k q r : nat) (hi : ascii) :
  (5 * k = 8 * q + r)%nat -> (r < 8)%nat ->
  (5 * k + 5 <= 8 * length src)%nat ->
  src !! q = Some hi ->
  window src k
  = take 5 (drop r (bits_of_char hi
                    ++ bits_of_char (default NUL (src !! S q)))).
Proof.
  intros Hk Hr Hlen Hhi. unfold window.
  rewrite Hk, <- drop_drop, bitstream_drop.
  pose proof (lookup_lt_Some _ _ _ Hhi) as Hq.
  rewrite (drop_S _ _ _ Hhi), bitstream_cons.
  destruct (src !! S q) as [lo|] eqn:Hlo; simpl.
  - rewrite (drop_S _ _ _ Hlo), bitstream_cons.
    destruct hi, lo.
    do 8 (destruct r as [|r]; [reflexivity|]). lia.
  - apply lookup_ge_None in Hlo.
    rewrite (drop_ge src (S q)) by lia.
    destruct hi.
    do 4 (destruct r as [|r]; [reflexivity|]). lia.
Qed.

Lemma window_length (src : list ascii) (k : nat) : length (window src k) = 5%nat.
Proof. apply length_resize. Qed.

Lemma bits_value_window_range (src : list ascii) (k : nat) :
  0 <= bits_value (window src k) < 32.
Proof.
  pose proof (window_length src k) as H.
  destruct (window src k) as [|b0 [|b1 [|b2 [|b3 [|b4 [|b5 l]]]]]]; try done.
  destruct b0, b1, b2, b3, b4; vm_compute; split; (discriminate || reflexivity).
Qed.

(** The 32 entries of the alphabet: none is NUL, each is a lowercase
    letter or a digit from 2 to 7. *)
Lemma BASE32_CHARS_lookup (v : Z) :
  0 <= v < 32 ->
  BASE32_CHARS !! Z.to_nat v = Some (nth (Z.to_nat v) BASE32_CHARS NUL)
  /\ nth (Z.to_nat v) BASE32_CHARS NUL <> NUL
  /\ base32_char (nth (Z.to_nat v) BASE32_CHARS NUL) = true.
Proof.
  intros Hv. assert (Hn : (Z.to_nat v < 32)%nat) by lia.
  revert Hn. generalize (Z.to_nat v). intros n Hn.
  do 32 (destruct n as [|n];
    [vm_compute; split; [reflexivity|split; [discriminate|reflexivity]]|]).
  lia.
Qed.

Lemma read_lookup (buf : list ascii) (i : nat) (c : ascii) :
  buf !! i = Some c -> read buf (Z.of_nat i) = Ret c.
Proof.
  intros H. unfold read.
  destruct (Z.ltb_spec (Z.of_nat i) 0); [lia|]. by rewrite Nat2Z.id, H.
Qed.

Lemma write_insert (buf : list ascii) (i : nat) (c : ascii) :
  (i < length buf)%nat -> write buf (Z.of_nat i) c = Ret (<[i := c]> buf).
Proof.
  intros H. unfold write. rewrite Nat2Z.id.
  destruct (Z.leb_spec 0 (Z.of_nat i)); [|lia].
  destruct (Z.ltb_spec (Z.of_nat i) (Z.of_nat (length buf))); [done|lia].
Qed.

Section Base32Loop.

(** The source array holds at least [srclen] characters; their
    [8 * srclen] bits make [N] windows of 5 bits, a number that fits
    the [unsigned int] counter [i]. *)
Variables (src : list ascii) (srclen N : nat).
Hypothesis src_length : (srclen <= length src)%nat.
Hypothesis windows : (8 * srclen = 5 * N)%nat.
Hypothesis windows_fit : Z.of_nat N <= UINT_MAX.

(** One turn of the loop writes the character of window [k] at [k]. *)
Lemma base32_encode_loop_step (fuel k : nat) (dest : list ascii) :
  (k < N)%nat -> (N < length dest)%nat ->
  base32_encode_loop (S fuel) src (Z.of_nat (8 * srclen))
                     (Z.of_nat k) (Z.of_nat (5 * k)) dest
  = base32_encode_loop fuel src (Z.of_nat (8 * srclen))
                       (Z.of_nat (S k)) (Z.of_nat (5 * S k))
                       (<[k := window_char (take srclen src) k]> dest).
Proof.
  intros Hk Hdest. unfold UINT_MAX in windows_fit.
  set (q := (5 * k / 8)%nat). set (r := (5 * k mod 8)%nat).
  assert (Hqr : (5 * k = 8 * q + r)%nat) by apply Nat.div_mod_eq.
  assert (Hr : (r < 8)%nat) by (apply Nat.mod_upper_bound; lia).
  destruct (lookup_lt_is_Some_2 src q ltac:(lia)) as [hi Hhi].
  assert (Hwin : window (take srclen src) k
                 = take 5 (drop r (bits_of_char hi ++ bits_of_char
                     (default NUL (take srclen src !! S q))))).
  { apply window_two_chars; [done|done| |].
    - rewrite length_take_le; lia.
    - rewrite lookup_take_lt; [done|lia]. }
  cbn [base32_encode_loop].
  rewrite (proj2 (Z.ltb_lt _ _)) by lia.
  replace (Z.of_nat (5 * k) / 8) with (Z.of_nat q)
    by (unfold q; by rewrite Nat2Z.inj_div).
  replace (Z.of_nat (5 * k) mod 8) with (Z.of_nat r)
    by (unfold r; by rewrite Nat2Z.inj_mod).
  replace (size_t (Z.of_nat (5 * k) + 5)) with (Z.of_nat (5 * S k))
    by (unfold size_t; rewrite Z.mod_small; lia).
  replace (size_t (Z.of_nat q + 1)) with (Z.of_nat (S q))
    by (unfold size_t; rewrite Z.mod_small; lia).
  replace (uint (Z.of_nat k + 1)) with (Z.of_nat (S k))
    by (unfold uint; rewrite Z.mod_small; lia).
  rewrite (read_lookup _ _ _ Hhi). cbn [mbind outcome_bind].
  pose proof (bits_value_window_range (take srclen src) k) as Hrange.
  pose proof (BASE32_CHARS_lookup _ Hrange) as (Hc & _ & _).
  fold (window_char (take srclen src) k) in Hc.
  assert (Hu : shift_and_mask hi (default NUL (take srclen src !! S q))
                              (Z.of_nat r)
               = bits_value (window (take srclen src) k))
    by (rewrite Hwin; by apply shift_and_mask_window).
  destruct (Z.ltb_spec (Z.of_nat (5 * S k)) (Z.of_nat (8 * srclen))) as [Hlt|Hge].
  - destruct (lookup_lt_is_Some_2 src (S q) ltac:(lia)) as [lo Hlo].
    rewrite lookup_take_lt, Hlo in Hu by lia. simpl in Hu.
    rewrite (read_lookup _ _ _ Hlo). cbn [mbind outcome_bind].
    fold (shift_and_mask hi lo (Z.of_nat r)). rewrite Hu.
    rewrite <- (Z2Nat.id (bits_value _)) by lia.
    rewrite (read_lookup _ _ _ Hc). cbn [mbind outcome_bind].
    by rewrite write_insert by lia.
  - rewrite lookup_take_ge in Hu by lia. simpl in Hu.
    cbn [mbind outcome_bind].
    unfold shift_and_mask in Hu. change (uchar NUL) with 0 in Hu.
    rewrite Z.add_0_r in Hu. unfold uint in Hu.
    rewrite Z.mod_mod in Hu by lia. fold (uint (Z.shiftl (uchar hi) 8)) in Hu.
    rewrite Hu.
    rewrite <- (Z2Nat.id (bits_value _)) by lia.
    rewrite (read_lookup _ _ _ Hc). cbn [mbind outcome_bind].
    by rewrite write_insert by lia.
Qed.

(** The loop, entered at window [k] with [m] windows to go, fills them
    in and leaves the rest of [dest] as it was. *)
Lemma base32_encode_loop_spec (m : nat) :
  forall (fuel k : nat) (dest : list ascii),
    (k + m = N)%nat -> (N < length dest)%nat -> (m < fuel)%nat ->
    base32_encode_loop fuel src (Z.of_nat (8 * srclen))
                       (Z.of_nat k) (Z.of_nat (5 * k)) dest
    = Ret (Z.of_nat N,
           take k dest ++ (window_char (take srclen src) <$> seq k m)
           ++ drop N dest).
Proof.
  induction m as [|m IH]; intros fuel k dest Hk Hdest Hfuel;
    (destruct fuel as [|fuel]; [lia|]).
  - cbn [base32_encode_loop].
    rewrite (proj2 (Z.ltb_ge _ _)) by lia.
    assert (k = N) as -> by lia. simpl. by rewrite take_drop.
  - rewrite base32_encode_loop_step by lia.
    rewrite IH by (rewrite ?length_insert; lia).
    rewrite drop_insert_lt by lia.
    erewrite take_S_r by (apply list_lookup_insert_eq; lia).
    rewrite take_insert_ge by lia.
    simpl. by rewrite <- app_assoc.
Qed.

End Base32Loop.

(** The characters of the windows are characters of the alphabet. *)
Lemma window_chars_base32 (src : list ascii) (k m : nat) :
  Forall (fun c => c <> NUL /\ base32_char c = true /\ c ∈ BASE32_CHARS)
         (window_char src <$> seq k m).
Proof.
  apply Forall_fmap, Forall_forall. intros i _. simpl.
  pose proof (BASE32_CHARS_lookup _ (bits_value_window_range src i))
    as (Hc & Hnul & Hb32).
  repeat split; [done..|]. by apply list_elem_of_lookup_2 in Hc.
Qed.

Lemma window_chars_no_NUL (src : list ascii) (k m : nat) :
  NUL ∉ window_char src <$> seq k m.
Proof.
  intros H. pose proof (window_chars_base32 src k m) as Hall.
  rewrite Forall_forall in Hall. by destruct (Hall _ H).
Qed.

(** [base32_encode] on the first [srclen] characters of [src], which make
    [N] windows: the array [dest] receives the characters of the windows
    and a NUL, and keeps what it held after them. *)
Lemma base32_encode_spec (dest : list ascii) (destlen : Z)
    (src : list ascii) (srclen N : nat) :
  (srclen <= length src)%nat ->
  (8 * srclen = 5 * N)%nat ->
  Z.of_nat N <= UINT_MAX ->
  Z.of_nat N + 1 <= destlen <= Z.of_nat (length dest) ->
  base32_encode dest destlen src (Z.of_nat srclen)
  = Ret ((window_char (take srclen src) <$> seq 0 N)
         ++ NUL :: drop (S N) dest).
Proof.
  intros Hsrc HN Hmax Hdest. unfold base32_encode.
  assert (Hbits : size_t (Z.of_nat srclen * 8) = Z.of_nat (8 * srclen)).
  { unfold size_t, UINT_MAX in *. rewrite Z.mod_small; lia. }
  rewrite Hbits.
  assert (Hdiv : Z.of_nat (8 * srclen) / 5 = Z.of_nat N).
  { rewrite HN, Nat2Z.inj_mul, Z.mul_comm. by apply Z.div_mul. }
  assert (Hmod : Z.of_nat (8 * srclen) mod 5 = 0).
  { rewrite HN, Nat2Z.inj_mul, Z.mul_comm. by apply Z.mod_mul. }
  rewrite Hmod, Hdiv, Nat2Z.id.
  rewrite (proj2 (Z.leb_le _ _)) by lia.
  cbn [assert mbind outcome_bind Z.eqb].
  pose proof (base32_encode_loop_spec src srclen N Hsrc HN Hmax N (S N) 0 dest)
    as Hloop.
  change (Z.of_nat (5 * 0)) with 0 in Hloop.
  change (Z.of_nat 0) with 0 in Hloop.
  rewrite Hloop by lia. cbn [mbind outcome_bind].
  rewrite take_0, app_nil_l.
  pose proof (lookup_lt_is_Some_2 dest N ltac:(lia)) as [c Hc].
  rewrite (drop_S _ _ _ Hc).
  rewrite write_insert by (rewrite length_app, length_fmap, length_seq; simpl; lia).
  f_equal. rewrite insert_app_r_alt by (rewrite length_fmap, length_seq; lia).
  rewrite length_fmap, length_seq, Nat.sub_diag. done.
Qed.

(** C1: on a source whose bit length is a multiple of 5, with room for
    the result in [dest] and a number of windows that fits the
    [unsigned int] counter, the encoder returns, and the string it leaves
    in [dest] has [8 * length src / 5] characters, the i-th of which is
    the alphabet [abcdefghijklmnopqrstuvwxyz234567] at the index given by
    the i-th window of 5 bits of [src], the bits of each character taken
    most significant first; every character of the string is in the
    alphabet, so none is a padding character. *)
Theorem base32_encode_windows (dest : list ascii) (destlen : Z)
    (src : list ascii) :
  (Z.of_nat (length src) * 8) mod 5 = 0 ->
  Z.of_nat (length src) * 8 / 5 <= UINT_MAX ->
  Z.of_nat (length src) * 8 / 5 + 1 <= destlen <= Z.of_nat (length dest) ->
  exists dest' : list ascii,
    base32_encode dest destlen src (Z.of_nat (length src)) = Ret dest'
    /\ strlen dest' = Z.of_nat (length src) * 8 / 5
    /\ (forall i : nat,
          Z.of_nat i < Z.of_nat (length src) * 8 / 5 ->
          exists c : ascii,
            c_str dest' !! i = Some c
            /\ BASE32_CHARS
                 !! Z.to_nat (bits_value
                               (resize 5 false (drop (5 * i) (bitstream src))))
               = Some c)
    /\ Forall (fun c => c ∈ BASE32_CHARS) (c_str dest')
    /\ "="%char ∉ c_str dest'.
Proof.
  intros Hmod Hmax Hdest.
  set (N := Z.to_nat (Z.of_nat (length src) * 8 / 5)).
  assert (HNZ : Z.of_nat (length src) * 8 / 5 = Z.of_nat N)
    by (unfold N; rewrite Z2Nat.id; [done|apply Z.div_pos; lia]).
  assert (HN : (8 * length src = 5 * N)%nat).
  { pose proof (Z.div_mod (Z.of_nat (length src) * 8) 5 ltac:(lia)) as Hdm.
    rewrite Hmod, HNZ in Hdm. lia. }
  clearbody N. rewrite HNZ in *.
  eexists. split.
  { apply (base32_encode_spec dest destlen src (length src) N); (done || lia). }
  rewrite firstn_all, c_str_app_NUL by apply window_chars_no_NUL.
  rewrite strlen_c_str, c_str_app_NUL by apply window_chars_no_NUL.
  rewrite length_fmap, length_seq.
  pose proof (window_chars_base32 src 0 N) as Hall.
  repeat split.
  - intros i Hi. exists (window_char src i). split.
    + rewrite list_lookup_fmap, lookup_seq_lt by lia. done.
    + apply (BASE32_CHARS_lookup _ (bits_value_window_range src i)).
  - eapply Forall_impl; [exact Hall|]. by intros c (_ & _ & Hc).
  - intros H. rewrite Forall_forall in Hall.
    by destruct (Hall _ H) as (_ & Hb & _).
Qed.

Lemma base32_encode_windows_witness :
  exists dest' : list ascii,
    base32_encode (replicate 9 "x"%char) 9 (lit "hello") 5 = Ret dest'
    /\ strlen dest' = 8.
Proof.
  destruct (base32_encode_windows (replicate 9 "x"%char) 9 (lit "hello"))
    as (dest' & Henc & Hlen & _).
  - vm_compute. reflexivity.
  - vm_compute. discriminate.
  - vm_compute. split; discriminate.
  - exists dest'. split; [exact Henc|exact Hlen].
Defined.

(** C7: encoding the 10 characters of code 0 leaves the string
    "aaaaaaaaaaaaaaaa", 16 times the letter a, in [dest]. *)
Theorem base32_encode_zeros (dest : list ascii) (destlen : Z) :
  17 <= destlen <= Z.of_nat (length dest) ->
  exists dest' : list ascii,
    base32_encode dest destlen (replicate 10 NUL) 10 = Ret dest'
    /\ c_str dest' = lit "aaaaaaaaaaaaaaaa"
    /\ strlen dest' = 16.
Proof.
  intros Hdest. eexists. split.
  { apply (base32_encode_spec dest destlen (replicate 10 NUL) 10 16);
      (done || (vm_compute; discriminate) || lia). }
  rewrite strlen_c_str, c_str_app_NUL by apply window_chars_no_NUL.
  by vm_compute.
Qed.

Lemma base32_encode_zeros_witness :
  exists dest' : list ascii,
    base32_encode (replicate 17 "x"%char) 17 (replicate 10 NUL) 10 = Ret dest'
    /\ c_str dest' = lit "aaaaaaaaaaaaaaaa"
    /\ strlen dest' = 16.
Proof.
  apply (base32_encode_zeros (replicate 17 "x"%char) 17).
  vm_compute. split; discriminate.
Defined.

(** ** Deriving the service identifier *)

Section Derivation.

Context {RSA : Type}.
Variable i2d_RSAPublicKey : RSA -> option (list ascii).
Variable SHA1 : list ascii -> option (list ascii).

(** [rend_get_service_id] fails where OpenSSL fails, and otherwise
    encodes the first [REND_SERVICE_ID_LEN] characters of the digest of
    the DER encoding of the public key. *)
Lemma rend_get_service_id_spec (buf0 : list ascii) (pk : RSA)
    (out : list ascii) :
  rend_get_service_id i2d_RSAPublicKey SHA1 buf0 pk out
  = match i2d_RSAPublicKey pk with
    | None => Abort assert_i2d_len_first
    | Some der =>
        match SHA1 der with
        | None => Abort assert_crypto_digest
        | Some digest =>
            out ← base32_encode out 17 (digest ++ drop (length digest) buf0) 10 ;
            Ret (true, out)
        end
    end.
Proof.
  unfold rend_get_service_id, crypto_pk_get_digest, crypto_digest,
    i2d_RSAPublicKey_len.
  destruct (i2d_RSAPublicKey pk) as [der|]; [|done].
  rewrite (proj2 (Z.leb_le 0 (Z.of_nat (length der)))) by lia.
  cbn [assert mbind outcome_bind default id].
  rewrite Nat2Z.id, firstn_all.
  by destruct (SHA1 der) as [digest|].
Qed.

(** The identifier [rend_get_service_id] derives from a key whose
    digest OpenSSL computes. *)
Lemma rend_get_service_id_digest (buf0 : list ascii) (pk : RSA)
    (out der digest : list ascii) :
  i2d_RSAPublicKey pk = Some der ->
  SHA1 der = Some digest ->
  length digest = Z.to_nat DIGEST_LEN ->
  (17 <= length out)%nat ->
  rend_get_service_id i2d_RSAPublicKey SHA1 buf0 pk out
  = Ret (true, (window_char (take 10 digest) <$> seq 0 16)
               ++ NUL :: drop 17 out).
Proof.
  intros Hder Hdigest Hlen Hout.
  rewrite rend_get_service_id_spec, Hder, Hdigest.
  change DIGEST_LEN with 20 in Hlen.
  rewrite (base32_encode_spec out 17 _ 10 16);
    [|rewrite length_app; lia|done|by vm_compute|lia].
  cbn [mbind outcome_bind]. by rewrite take_app_le by lia.
Qed.

(** C2: for a key whose public part OpenSSL encodes and digests to 20
    characters, [rend_get_service_id] returns true and leaves in [out]
    the base32 encoding of the first 10 characters of the digest of the
    DER encoding: a string of exactly 16 characters, each of them in the
    alphabet [abcdefghijklmnopqrstuvwxyz234567]. *)
Theorem rend_get_service_id_16_base32_chars (buf0 : list ascii) (pk : RSA)
    (out der digest : list ascii) :
  i2d_RSAPublicKey pk = Some der ->
  SHA1 der = Some digest ->
  length digest = Z.to_nat DIGEST_LEN ->
  (17 <= length out)%nat ->
  exists out' : list ascii,
    rend_get_service_id i2d_RSAPublicKey SHA1 buf0 pk out = Ret (true, out')
    /\ base32_encode out 17 (take 10 digest) 10 = Ret out'
    /\ strlen out' = 16
    /\ length (c_str out') = 16%nat
    /\ Forall (fun c => c ∈ BASE32_CHARS) (c_str out').
Proof.
  intros Hder Hdigest Hlen Hout. eexists. split.
  { by apply (rend_get_service_id_digest buf0 pk out der digest). }
  change DIGEST_LEN with 20 in Hlen.
  split.
  { rewrite (base32_encode_spec out 17 _ 10 16);
      [|rewrite length_take; lia|done|by vm_compute|lia].
    by rewrite take_take. }
  rewrite strlen_c_str, c_str_app_NUL by apply window_chars_no_NUL.
  rewrite length_fmap, length_seq. repeat split.
  eapply Forall_impl; [apply window_chars_base32|]. by intros c (_ & _ & Hc).
Qed.

End Derivation.

Lemma rend_get_service_id_16_base32_chars_witness :
  exists out' : list ascii,
    rend_get_service_id (RSA := list ascii)
      (fun pk => Some pk) (fun m => Some (resize 20 NUL m))
      (replicate 20 "x"%char) (lit "key") (replicate 17 "x"%char)
    = Ret (true, out')
    /\ c_str out' = lit "nnsxsaaaaaaaaaaa".
Proof.
  destruct (rend_get_service_id_16_base32_chars (RSA := list ascii)
              (fun pk => Some pk) (fun m => Some (resize 20 NUL m))
              (replicate 20 "x"%char) (lit "key") (replicate 17 "x"%char)
              (lit "key") (resize 20 NUL (lit "key")))
    as (out' & Hid & Henc & _).
  - reflexivity.
  - reflexivity.
  - vm_compute. reflexivity.
  - vm_compute. lia.
  - exists out'. split; [exact Hid|].
    vm_compute in Henc. injection Henc as <-. vm_compute. reflexivity.
Defined.

(** ** The search *)

(** The matcher reads the identifier as a string. *)
Lemma pattern_matches_service_id_c_str (pattern service_id : list ascii) :
  pattern_matches_service_id pattern (c_str service_id)
  = pattern_matches_service_id pattern service_id.
Proof.
  apply eq_true_iff_eq. unfold pattern_matches_service_id.
  rewrite !Z.eqb_eq, !strncmp_strlen_prefix.
  by rewrite (c_str_id (c_str service_id)) by apply c_str_no_NUL.
Qed.

Section Search.

Context {RSA : Type}.
Variable RSA_generate_key : nat -> option RSA.
Variable i2d_RSAPublicKey : RSA -> option (list ascii).
Variable SHA1 : list ascii -> option (list ascii).

(** A SHA-1 digest has [DIGEST_LEN] characters. *)
Hypothesis SHA1_length :
  forall m digest : list ascii,
    SHA1 m = Some digest -> length digest = Z.to_nat DIGEST_LEN.

(** The identifier does not depend on what the arrays held before. *)
Lemma rend_get_service_id_identifier (pk : RSA) (id : list ascii) :
  identifier_of i2d_RSAPublicKey SHA1 pk = Some id ->
  forall buf0 out : list ascii,
    length out = 17%nat ->
    exists out' : list ascii,
      rend_get_service_id i2d_RSAPublicKey SHA1 buf0 pk out = Ret (true, out')
      /\ length out' = 17%nat /\ c_str out' = id.
Proof.
  unfold identifier_of. intros Hid buf0 out Hout.
  rewrite rend_get_service_id_spec in Hid.
  destruct (i2d_RSAPublicKey pk) as [der|] eqn:Hder; [|done].
  destruct (SHA1 der) as [digest|] eqn:Hdigest; [|done].
  pose proof (SHA1_length _ _ Hdigest) as Hlen.
  pose proof (rend_get_service_id_digest i2d_RSAPublicKey SHA1
                (replicate 20 NUL) pk (replicate 17 NUL) der digest
                Hder Hdigest Hlen) as Hfresh.
  rewrite rend_get_service_id_spec, Hder, Hdigest in Hfresh.
  rewrite Hfresh in Hid by (by vm_compute). clear Hfresh.
  rewrite c_str_app_NUL in Hid by apply window_chars_no_NUL.
  injection Hid as <-.
  eexists. split.
  { apply (rend_get_service_id_digest _ _ buf0 pk out der digest);
      (done || lia). }
  split.
  - rewrite length_app, length_fmap, length_seq. simpl.
    rewrite length_drop. lia.
  - by rewrite c_str_app_NUL by apply window_chars_no_NUL.
Qed.

Variable pattern : list ascii.
Variable buf0 : list ascii.

(** The loop ends at the first key whose identifier matches. *)
Lemma generate_service_loop_first_match (n : nat) :
  forall (keys : nat -> RSA) (fuel : nat) (service_id : list ascii)
         (w : world RSA),
    length service_id = 17%nat ->
    (forall j, (j <= n)%nat ->
               RSA_generate_key (keys_generated w + j) = Some (keys j)) ->
    (forall j, (j < n)%nat ->
               exists id, identifier_of i2d_RSAPublicKey SHA1 (keys j) = Some id
                          /\ pattern_matches_service_id pattern id = false) ->
    (exists id, identifier_of i2d_RSAPublicKey SHA1 (keys n) = Some id
                /\ pattern_matches_service_id pattern id = true) ->
    (n < fuel)%nat ->
    generate_service_loop RSA_generate_key i2d_RSAPublicKey SHA1
                          fuel buf0 pattern service_id w
    = Ret (keys n, World (keys_generated w + S n) (exported w)).
Proof.
  induction n as [|n IH];
    intros keys fuel service_id w Hsid Hgen Hmiss Hhit Hfuel;
    (destruct fuel as [|fuel]; [lia|]); cbn [generate_service_loop].
  - rewrite <- (Nat.add_0_r (keys_generated w)) at 1.
    rewrite Hgen by lia.
    destruct Hhit as (id & Hid & Hmatch).
    destruct (rend_get_service_id_identifier _ _ Hid buf0 _ Hsid)
      as (out' & -> & _ & Hstr).
    cbn [assert mbind outcome_bind].
    rewrite <- pattern_matches_service_id_c_str, Hstr, Hmatch.
    simpl. by rewrite Nat.add_1_r.
  - rewrite <- (Nat.add_0_r (keys_generated w)) at 1.
    rewrite Hgen by lia.
    destruct (Hmiss 0%nat ltac:(lia)) as (id & Hid & Hmatch).
    destruct (rend_get_service_id_identifier _ _ Hid buf0 _ Hsid)
      as (out' & -> & Hlen & Hstr).
    cbn [assert mbind outcome_bind].
    rewrite <- pattern_matches_service_id_c_str, Hstr, Hmatch.
    cbn [negb].
    rewrite (IH (fun j => keys (S j))); [|done| | |done|lia].
    + cbn [keys_generated exported].
      by replace (S (keys_generated w) + S n)%nat
        with (keys_generated w + S (S n))%nat by lia.
    + intros j Hj. cbn [keys_generated].
      replace (S (keys_generated w) + j)%nat
        with (keys_generated w + S j)%nat by lia.
      apply Hgen. lia.
    + intros j Hj. apply Hmiss. lia.
Qed.

End Search.

(** C5: for every pattern, valid ones among them, and a key generator
    whose keys have identifiers of which the one of index [n] is the
    first to match the pattern, the search loop of [generate_service]
    ends as soon as it is given more than [n] turns: it has asked for
    [n + 1] keys and the key it returns is the key of index [n]; the keys
    before it are left behind, and none of them has been exported. *)
Theorem generate_service_loop_returns_first_match {RSA : Type}
    (RSA_generate_key : nat -> option RSA)
    (i2d_RSAPublicKey : RSA -> option (list ascii))
    (SHA1 : list ascii -> option (list ascii))
    (pattern buf0 service_id : list ascii) (w : world RSA)
    (keys : nat -> RSA) (n fuel : nat) :
  (forall m digest : list ascii,
      SHA1 m = Some digest -> length digest = Z.to_nat DIGEST_LEN) ->
  length service_id = 17%nat ->
  (forall j, (j <= n)%nat ->
             RSA_generate_key (keys_generated w + j)%nat = Some (keys j)) ->
  (forall j, (j < n)%nat ->
             exists id, identifier_of i2d_RSAPublicKey SHA1 (keys j) = Some id
                        /\ pattern_matches_service_id pattern id = false) ->
  (exists id, identifier_of i2d_RSAPublicKey SHA1 (keys n) = Some id
              /\ pattern_matches_service_id pattern id = true) ->
  (n < fuel)%nat ->
  generate_service_loop RSA_generate_key i2d_RSAPublicKey SHA1
                        fuel buf0 pattern service_id w
  = Ret (keys n, World (keys_generated w + S n)%nat (exported w)).
Proof.
  intros HSHA1 Hsid Hgen Hmiss Hhit Hfuel.
  by apply (generate_service_loop_first_match _ _ _ HSHA1 pattern buf0 n keys).
Qed.

(** C9: called with an argument count other than 2, [main] returns 0 and
    leaves the world as it was: no key is asked for and none exported,
    whatever the arguments are, valid patterns or not, and even with no
    turn of the search loop allowed. *)
Theorem main_without_pattern {RSA : Type}
    (RSA_generate_key : nat -> option RSA)
    (i2d_RSAPublicKey : RSA -> option (list ascii))
    (SHA1 : list ascii -> option (list ascii))
    {FILE : Type} (mkdir : list ascii -> Z)
    (malloc : Z -> option (list ascii)) (fopen : list ascii -> option FILE)
    (PEM_write_RSAPrivateKey : FILE -> RSA -> Z)
    (fuel : nat) (buf0 service_id0 : list ascii)
    (argc : Z) (argv : list (list ascii)) (w : world RSA) :
  argc <> 2 ->
  main RSA_generate_key i2d_RSAPublicKey SHA1
       mkdir malloc fopen PEM_write_RSAPrivateKey
       fuel buf0 service_id0 argc argv w
  = Ret (0, w).
Proof.
  intros Hargc. unfold main.
  destruct (Z.eqb_spec argc 2); [done|reflexivity].
Qed.

Lemma generate_service_loop_returns_first_match_witness :
  generate_service_loop (RSA := list ascii)
    (fun j => Some (nth j [lit "k0"; lit "k1"; lit "key"] []))
    (fun pk => Some pk) (fun m => Some (resize 20 NUL m))
    3 (replicate 20 "x"%char) (lit "nn") (replicate 17 "x"%char) (World 0 [])
  = Ret (lit "key", World 3 []).
Proof.
  apply (generate_service_loop_returns_first_match (RSA := list ascii)
           (fun j => Some (nth j [lit "k0"; lit "k1"; lit "key"] []))
           (fun pk => Some pk) (fun m => Some (resize 20 NUL m))
           (lit "nn") (replicate 20 "x"%char) (replicate 17 "x"%char)
           (World 0 []) (fun j => nth j [lit "k0"; lit "k1"; lit "key"] [])
           2 3).
  - intros m digest [= <-]. apply length_resize.
  - reflexivity.
  - intros j Hj. reflexivity.
  - intros j Hj.
    destruct j as [|[|j]]; [eexists; split; vm_compute; reflexivity..|lia].
  - eexists. split; vm_compute; reflexivity.
  - lia.
Defined.

Lemma main_without_pattern_witness :
  main (RSA := list ascii) (FILE := nat)
    (fun j => Some (lit "key")) (fun pk => Some pk)
    (fun m => Some (resize 20 NUL m))
    (fun path => 0) (fun size => Some []) (fun path => Some 7%nat)
    (fun file key => 1)
    0 (replicate 20 "x"%char) (replicate 17 "x"%char)
    3 [lit "oniongen"; lit "ABC"; lit "abc"] (World 0 [])
  = Ret (0, World 0 []).
Proof.
  apply (main_without_pattern (RSA := list ascii) (FILE := nat)
           (fun j => Some (lit "key")) (fun pk => Some pk)
           (fun m => Some (resize 20 NUL m))
           (fun path => 0) (fun size => Some []) (fun path => Some 7%nat)
           (fun file key => 1)
           0 (replicate 20 "x"%char) (replicate 17 "x"%char)
           3 [lit "oniongen"; lit "ABC"; lit "abc"] (World 0 [])).
  lia.
Defined.

(** The encoder agrees with the lowercase RFC 4648 encoding on a known
    vector. *)
Example base32_encode_hello :
  base32_encode (replicate 9 NUL) 9 (lit "hello") 5
  = Ret (lit "nbswy3dp" ++ [NUL]).
Proof. vm_compute. reflexivity. Qed.

(** The identifier buffer of [generate_service] has room for exactly the
    16 characters and the terminator: one character less and the second
    assertion of [base32_encode] fails. *)
Example base32_encode_no_room :
  base32_encode (replicate 16 NUL) 16 (replicate 10 NUL) 10
  = Abort assert_enough_space.
Proof. vm_compute. reflexivity. Qed.

(** * Further properties of the code *)

(** ** The base32 encoder: preconditions, frame, reads *)

(** The two assertions of [base32_encode]: a source whose length in
    characters is not a multiple of 5 fails the first, and a source of a
    right length whose windows and terminator do not fit in [destlen]
    fails the second.  Neither reads [src] nor writes [dest]. *)
Theorem base32_encode_preconditions (dest : list ascii) (destlen : Z)
    (src : list ascii) (srclen : Z) :
  0 <= srclen < 2 ^ 61 ->
  (srclen mod 5 <> 0 ->
   base32_encode dest destlen src srclen = Abort assert_nbits_multiple_of_5)
  /\ (srclen mod 5 = 0 -> destlen <= srclen * 8 / 5 ->
      base32_encode dest destlen src srclen = Abort assert_enough_space).
Proof.
  intros Hrange. unfold base32_encode.
  assert (Hbits : size_t (srclen * 8) = srclen * 8)
    by (unfold size_t; rewrite Z.mod_small; lia).
  rewrite Hbits. split.
  - intros Hmod.
    destruct (Z.eqb_spec ((srclen * 8) mod 5) 0) as [H0|_]; [|done].
    exfalso. apply Hmod.
    pose proof (Z.div_mod srclen 5 ltac:(lia)).
    pose proof (Z.div_mod (srclen * 8) 5 ltac:(lia)).
    pose proof (Z.mod_pos_bound srclen 5 ltac:(lia)). lia.
  - intros Hmod Hroom.
    assert (H0 : (srclen * 8) mod 5 = 0).
    { apply Z.mod_divide; [lia|]. apply Z.mod_divide in Hmod; [|lia].
      by apply Z.divide_mul_l. }
    rewrite H0. cbn [Z.eqb assert mbind outcome_bind].
    by rewrite (proj2 (Z.leb_gt _ _)) by lia.
Qed.

Lemma base32_encode_preconditions_witness :
  base32_encode (replicate 17 NUL) 17 (lit "abcdefg") 7
  = Abort assert_nbits_multiple_of_5
  /\ base32_encode (replicate 17 NUL) 16 (lit "abcdefghij") 10
     = Abort assert_enough_space.
Proof.
  split.
  - apply (proj1 (base32_encode_preconditions (replicate 17 NUL) 17
                    (lit "abcdefg") 7 ltac:(lia))).
    vm_compute. discriminate.
  - apply (proj2 (base32_encode_preconditions (replicate 17 NUL) 16
                    (lit "abcdefghij") 10 ltac:(lia))).
    + vm_compute. reflexivity.
    + vm_compute. discriminate.
Defined.

(** [base32_encode] writes the cells 0 to [N] of [dest], where [N] is
    the number of windows, and nothing else: the array keeps its length,
    cell [N] holds the terminator, and every cell after it keeps its
    content. *)
Theorem base32_encode_frame (dest : list ascii) (destlen : Z)
    (src : list ascii) (srclen N : nat) :
  (srclen <= length src)%nat ->
  (8 * srclen = 5 * N)%nat ->
  Z.of_nat N <= UINT_MAX ->
  Z.of_nat N + 1 <= destlen <= Z.of_nat (length dest) ->
  exists dest' : list ascii,
    base32_encode dest destlen src (Z.of_nat srclen) = Ret dest'
    /\ length dest' = length dest
    /\ dest' !! N = Some NUL
    /\ (forall j : nat, (N < j)%nat -> dest' !! j = dest !! j).
Proof.
  intros Hsrc HN Hmax Hdest. eexists. split.
  { by apply (base32_encode_spec dest destlen src srclen N). }
  assert (Hlen : length (window_char (take srclen src) <$> seq 0 N) = N)
    by (by rewrite length_fmap, length_seq).
  repeat split.
  - rewrite length_app, Hlen. simpl. rewrite length_drop. lia.
  - rewrite lookup_app_r by lia. by rewrite Hlen, Nat.sub_diag.
  - intros j Hj. rewrite lookup_app_r by lia. rewrite Hlen.
    replace (j - N)%nat with (S (j - S N)) by lia. simpl.
    rewrite lookup_drop. f_equal. lia.
Qed.

Lemma base32_encode_frame_witness :
  exists dest' : list ascii,
    base32_encode (lit "0123456789") 9 (lit "hello") 5 = Ret dest'
    /\ dest' !! 9%nat = Some "9"%char.
Proof.
  destruct (base32_encode_frame (lit "0123456789") 9 (lit "hello") 5 8)
    as (dest' & Henc & _ & _ & Hrest).
  - vm_compute. lia.
  - reflexivity.
  - vm_compute. discriminate.
  - vm_compute. split; discriminate.
  - exists dest'. split; [exact Henc|].
    rewrite (Hrest 9%nat) by lia. reflexivity.
Defined.

(** [base32_encode] reads the first [srclen] characters of [src] and no
    other: on two sources that agree on them, and the same [dest], it
    returns the same array. *)
Theorem base32_encode_reads_srclen (dest : list ascii) (destlen : Z)
    (src1 src2 : list ascii) (srclen N : nat) :
  (srclen <= length src1)%nat ->
  (srclen <= length src2)%nat ->
  take srclen src1 = take srclen src2 ->
  (8 * srclen = 5 * N)%nat ->
  Z.of_nat N <= UINT_MAX ->
  Z.of_nat N + 1 <= destlen <= Z.of_nat (length dest) ->
  base32_encode dest destlen src1 (Z.of_nat srclen)
  = base32_encode dest destlen src2 (Z.of_nat srclen).
Proof.
  intros Hsrc1 Hsrc2 Heq HN Hmax Hdest.
  rewrite (base32_encode_spec dest destlen src1 srclen N) by done.
  rewrite (base32_encode_spec dest destlen src2 srclen N) by done.
  by rewrite Heq.
Qed.

Lemma base32_encode_reads_srclen_witness :
  base32_encode (replicate 9 NUL) 9 (lit "hello, world") 5
  = base32_encode (replicate 9 NUL) 9 (lit "hello") 5.
Proof.
  apply (base32_encode_reads_srclen (replicate 9 NUL) 9
           (lit "hello, world") (lit "hello") 5 8).
  - vm_compute. lia.
  - vm_compute. lia.
  - reflexivity.
  - reflexivity.
  - vm_compute. discriminate.
  - vm_compute. split; discriminate.
Defined.

(** The empty source: [base32_encode] with [srclen = 0] reads nothing
    and writes the terminator at [dest[0]], leaving the empty string. *)
Theorem base32_encode_empty (dest : list ascii) (destlen : Z)
    (src : list ascii) :
  1 <= destlen <= Z.of_nat (length dest) ->
  base32_encode dest destlen src 0 = Ret (NUL :: drop 1 dest)
  /\ strlen (NUL :: drop 1 dest) = 0.
Proof.
  intros Hdest. split; [|done].
  pose proof (base32_encode_spec dest destlen src 0 0) as Hspec.
  change (Z.of_nat 0) with 0 in Hspec. unfold UINT_MAX in Hspec.
  apply Hspec; (done || lia).
Qed.

Lemma base32_encode_empty_witness :
  base32_encode (lit "xyz") 3 [] 0 = Ret (NUL :: lit "yz").
Proof.
  apply (base32_encode_empty (lit "xyz") 3 []).
  vm_compute. split; discriminate.
Defined.

(** ** The base32 encoder: one source per string, and concatenation *)

Lemma bits_of_char_inj (c1 c2 : ascii) :
  bits_of_char c1 = bits_of_char c2 -> c1 = c2.
Proof. destruct c1, c2. simpl. by intros [= -> -> -> -> -> -> -> ->]. Qed.

Lemma bitstream_app (src1 src2 : list ascii) :
  bitstream (src1 ++ src2) = bitstream src1 ++ bitstream src2.
Proof.
  induction src1 as [|c src1 IH]; [done|].
  simpl. by rewrite !bitstream_cons, IH, app_assoc.
Qed.

Lemma bitstream_inj (src1 : list ascii) :
  forall src2 : list ascii,
    length src1 = length src2 -> bitstream src1 = bitstream src2 ->
    src1 = src2.
Proof.
  induction src1 as [|c1 src1 IH]; intros [|c2 src2] Hlen Hbits; try done.
  rewrite !bitstream_cons in Hbits.
  apply app_inj_1 in Hbits as [Hc Hrest];
    [|by rewrite !bits_of_char_length].
  f_equal; [by apply bits_of_char_inj|]. apply IH; [|done].
  simpl in Hlen. lia.
Qed.

(** Five bits are determined by the number they spell. *)
Lemma bits_value_inj (bits1 bits2 : list bool) :
  length bits1 = 5%nat -> length bits2 = 5%nat ->
  bits_value bits1 = bits_value bits2 -> bits1 = bits2.
Proof.
  intros H1 H2.
  destruct bits1 as [|a0 [|a1 [|a2 [|a3 [|a4 [|? ?]]]]]]; try done.
  destruct bits2 as [|b0 [|b1 [|b2 [|b3 [|b4 [|? ?]]]]]]; try done.
  destruct a0, a1, a2, a3, a4, b0, b1, b2, b3, b4;
    vm_compute; intros H; (reflexivity || discriminate H).
Qed.

(** The alphabet has 32 different characters. *)
Lemma BASE32_CHARS_NoDup : NoDup BASE32_CHARS.
Proof.
  apply (NoDup_fmap_1 uchar).
  apply (bool_decide_unpack (NoDup (uchar <$> BASE32_CHARS))). by vm_compute.
Qed.

(** A window is determined by its character. *)
Lemma window_char_inj (src1 src2 : list ascii) (k1 k2 : nat) :
  window_char src1 k1 = window_char src2 k2 -> window src1 k1 = window src2 k2.
Proof.
  intros Heq.
  pose proof (bits_value_window_range src1 k1) as Hr1.
  pose proof (bits_value_window_range src2 k2) as Hr2.
  pose proof (BASE32_CHARS_lookup _ Hr1) as (Hc1 & _).
  pose proof (BASE32_CHARS_lookup _ Hr2) as (Hc2 & _).
  fold (window_char src1 k1) in Hc1. fold (window_char src2 k2) in Hc2.
  rewrite <- Heq in Hc2.
  pose proof (NoDup_lookup _ _ _ _ BASE32_CHARS_NoDup Hc1 Hc2) as Hv.
  apply bits_value_inj; [apply window_length..|lia].
Qed.

(** A stream of [5 * N] bits is determined by its [N] windows. *)
Lemma windows_inj (bits1 bits2 : list bool) (N : nat) :
  length bits1 = (5 * N)%nat -> length bits2 = (5 * N)%nat ->
  (forall k : nat, (k < N)%nat ->
     resize 5 false (drop (5 * k) bits1)
     = resize 5 false (drop (5 * k) bits2)) ->
  bits1 = bits2.
Proof.
  intros H1 H2 Hwin. apply list_eq. intros j.
  destruct (decide (j < 5 * N)%nat) as [Hj|Hj].
  - pose proof (Nat.div_mod_eq j 5) as Hdm.
    pose proof (Nat.mod_upper_bound j 5 ltac:(lia)) as Hr.
    pose proof (Hwin (j / 5)%nat ltac:(lia)) as Hk.
    rewrite !resize_le in Hk by (rewrite length_drop; lia).
    apply (f_equal (fun l => l !! (j mod 5)%nat)) in Hk.
    rewrite !lookup_take_lt, !lookup_drop in Hk by lia.
    by rewrite <- Hdm in Hk.
  - rewrite !lookup_ge_None_2 by lia. done.
Qed.

(** Sources of whole windows are determined by the characters of their
    windows. *)
Lemma window_chars_inj (src1 src2 : list ascii) (N1 N2 : nat) :
  (8 * length src1 = 5 * N1)%nat ->
  (8 * length src2 = 5 * N2)%nat ->
  window_char src1 <$> seq 0 N1 = window_char src2 <$> seq 0 N2 ->
  src1 = src2.
Proof.
  intros HN1 HN2 Hstr.
  assert (N1 = N2) as <-.
  { apply (f_equal length) in Hstr.
    by rewrite !length_fmap, !length_seq in Hstr. }
  apply bitstream_inj; [lia|].
  apply (windows_inj _ _ N1); [rewrite bitstream_length; lia..|].
  intros k Hk. apply (window_char_inj src1 src2 k k).
  apply (f_equal (fun l => l !! k)) in Hstr.
  rewrite !list_lookup_fmap, !lookup_seq_lt in Hstr by done.
  by injection Hstr.
Qed.

(** The encoding loses nothing: two sources that [base32_encode] turns
    into the same string are the same source. *)
Theorem base32_encode_injective (dest1 dest2 : list ascii)
    (destlen1 destlen2 : Z) (src1 src2 : list ascii) (N1 N2 : nat)
    (out1 out2 : list ascii) :
  (8 * length src1 = 5 * N1)%nat ->
  (8 * length src2 = 5 * N2)%nat ->
  Z.of_nat N1 <= UINT_MAX ->
  Z.of_nat N2 <= UINT_MAX ->
  Z.of_nat N1 + 1 <= destlen1 <= Z.of_nat (length dest1) ->
  Z.of_nat N2 + 1 <= destlen2 <= Z.of_nat (length dest2) ->
  base32_encode dest1 destlen1 src1 (Z.of_nat (length src1)) = Ret out1 ->
  base32_encode dest2 destlen2 src2 (Z.of_nat (length src2)) = Ret out2 ->
  c_str out1 = c_str out2 ->
  src1 = src2.
Proof.
  intros HN1 HN2 Hmax1 Hmax2 Hdest1 Hdest2 Henc1 Henc2 Hstr.
  rewrite (base32_encode_spec dest1 destlen1 src1 _ N1) in Henc1 by done.
  rewrite (base32_encode_spec dest2 destlen2 src2 _ N2) in Henc2 by done.
  injection Henc1 as <-. injection Henc2 as <-.
  rewrite !c_str_app_NUL, !firstn_all in Hstr by apply window_chars_no_NUL.
  by apply (window_chars_inj src1 src2 N1 N2).
Qed.

Lemma base32_encode_injective_witness :
  lit "hello" = lit "hello".
Proof.
  apply (base32_encode_injective (replicate 9 NUL) (replicate 12 "x"%char)
           9 10 (lit "hello") (lit "hello") 8 8
           (lit "nbswy3dp" ++ [NUL])
           (lit "nbswy3dp" ++ NUL :: lit "xxx")).
  - reflexivity.
  - reflexivity.
  - vm_compute. discriminate.
  - vm_compute. discriminate.
  - vm_compute. split; discriminate.
  - vm_compute. split; discriminate.
  - vm_compute. reflexivity.
  - vm_compute. reflexivity.
  - vm_compute. reflexivity.
Defined.

(** The characters of the windows of [src1 ++ src2], when [src1] ends on
    a window boundary. *)
Lemma window_chars_app (src1 src2 : list ascii) (N1 N2 : nat) :
  (8 * length src1 = 5 * N1)%nat ->
  window_char (src1 ++ src2) <$> seq 0 (N1 + N2)
  = (window_char src1 <$> seq 0 N1) ++ (window_char src2 <$> seq 0 N2).
Proof.
  intros HN1. rewrite seq_app, fmap_app. f_equal.
  - apply list_fmap_ext. intros i k Hk.
    apply lookup_seq in Hk as [-> Hi].
    unfold window_char, window. rewrite bitstream_app.
    rewrite drop_app_le by (rewrite bitstream_length; lia).
    by rewrite resize_app_le
      by (rewrite length_drop, bitstream_length; simpl; lia).
  - replace (seq (0 + N1) N2) with (Nat.add N1 <$> seq 0 N2)
      by (rewrite fmap_add_seq; f_equal; lia).
    rewrite <- list_fmap_compose.
    apply list_fmap_ext. intros i k _. simpl.
    unfold window_char, window. rewrite bitstream_app.
    replace (5 * (N1 + k))%nat with (5 * N1 + 5 * k)%nat by lia.
    by rewrite drop_app_add' by (rewrite bitstream_length; lia).
Qed.

(** Encoding block by block: when [src1] has a whole number of 5-character
    blocks, the string for [src1 ++ src2] is the string for [src1]
    followed by the string for [src2]. *)
Theorem base32_encode_app (dest : list ascii) (destlen : Z)
    (src1 src2 : list ascii) (N1 N2 : nat) :
  (8 * length src1 = 5 * N1)%nat ->
  (8 * length src2 = 5 * N2)%nat ->
  Z.of_nat (N1 + N2) <= UINT_MAX ->
  Z.of_nat (N1 + N2) + 1 <= destlen <= Z.of_nat (length dest) ->
  exists out1 out2 out : list ascii,
    base32_encode dest destlen src1 (Z.of_nat (length src1)) = Ret out1
    /\ base32_encode dest destlen src2 (Z.of_nat (length src2)) = Ret out2
    /\ base32_encode dest destlen (src1 ++ src2)
                     (Z.of_nat (length (src1 ++ src2))) = Ret out
    /\ c_str out = c_str out1 ++ c_str out2.
Proof.
  intros HN1 HN2 Hmax Hdest. do 3 eexists.
  split; [apply (base32_encode_spec dest destlen src1 _ N1); (done || lia)|].
  split; [apply (base32_encode_spec dest destlen src2 _ N2); (done || lia)|].
  split.
  { apply (base32_encode_spec dest destlen (src1 ++ src2) _ (N1 + N2));
      [done|rewrite length_app; lia|done|done]. }
  rewrite !c_str_app_NUL, !firstn_all by apply window_chars_no_NUL.
  by apply window_chars_app.
Qed.

Lemma base32_encode_app_witness :
  exists out : list ascii,
    base32_encode (replicate 17 NUL) 17 (lit "hello" ++ lit "world") 10
    = Ret out
    /\ c_str out = lit "nbswy3dp" ++ lit "o5xxe3de".
Proof.
  destruct (base32_encode_app (replicate 17 NUL) 17
              (lit "hello") (lit "world") 8 8)
    as (out1 & out2 & out & H1 & H2 & H12 & Happ).
  - reflexivity.
  - reflexivity.
  - vm_compute. discriminate.
  - vm_compute. split; discriminate.
  - exists out. split; [exact H12|].
    vm_compute in H1. injection H1 as <-.
    vm_compute in H2. injection H2 as <-.
    rewrite Happ. vm_compute. reflexivity.
Defined.

(** ** Patterns *)

Lemma accepted_char_codes (c : ascii) :
  accepted_char c = true
  <-> (97 <= uchar c <= 122 \/ 2 <= uchar c <= 7).
Proof.
  pose proof (uchar_range c) as Hc.
  unfold accepted_char, islower, schar.
  destruct (Z.ltb_spec (uchar c) 128);
    rewrite orb_true_iff, !andb_true_iff, !Z.leb_le; lia.
Qed.

(** The patterns that pass the validation of [generate_service] are the
    strings of at most 16 characters in which every character is a
    lowercase letter (codes 97 to 122) or has a code from 2 to 7. *)
Theorem validate_pattern_accepts_iff (pattern : list ascii) :
  validate_pattern pattern = Ret tt
  <-> strlen pattern <= REND_SERVICE_ID_LEN_BASE32
      /\ Forall (fun c => 97 <= uchar c <= 122 \/ 2 <= uchar c <= 7)
                (c_str pattern).
Proof.
  rewrite validate_pattern_spec.
  unfold pattern_is_not_too_long, REND_SERVICE_ID_LEN_BASE32.
  destruct (Z.leb_spec (strlen pattern) 16) as [Hle|Hgt]; simpl.
  - destruct (forallb accepted_char (c_str pattern)) eqn:Hall.
    + split; [intros _|done]. split; [done|].
      rewrite forallb_forall in Hall. apply Forall_forall. intros c Hc.
      apply accepted_char_codes, Hall. by apply list_elem_of_In.
    + split; [done|]. intros [_ Hcodes]. exfalso.
      apply not_true_iff_false in Hall. apply Hall, forallb_forall.
      intros c Hc. apply accepted_char_codes.
      rewrite Forall_forall in Hcodes. by apply Hcodes, list_elem_of_In.
  - split; [done|]. intros [? _]. lia.
Qed.

(** A pattern that matches is no longer than the identifier, and one as
    long as the identifier matches only if it is the identifier. *)
Theorem pattern_matches_service_id_length (pattern service_id : list ascii) :
  pattern_matches_service_id pattern service_id = true ->
  strlen pattern <= strlen service_id
  /\ (strlen pattern = strlen service_id -> c_str pattern = c_str service_id).
Proof.
  unfold pattern_matches_service_id.
  rewrite Z.eqb_eq, strncmp_strlen_prefix, !strlen_c_str, Nat2Z.id.
  intros Htake. split.
  - apply (f_equal length) in Htake. rewrite length_take in Htake. lia.
  - intros Hlen. rewrite <- Htake. rewrite take_ge; [done|lia].
Qed.

Lemma pattern_matches_service_id_length_witness :
  strlen (lit "abcdefghij234567") <= strlen (lit "abcdefghij234567")
  /\ (strlen (lit "abcdefghij234567") = strlen (lit "abcdefghij234567") ->
      c_str (lit "abcdefghij234567") = c_str (lit "abcdefghij234567")).
Proof.
  apply (pattern_matches_service_id_length
           (lit "abcdefghij234567") (lit "abcdefghij234567")).
  vm_compute. reflexivity.
Defined.

(** Shortening a pattern keeps its matches: an identifier that matches a
    pattern matches every prefix of the pattern. *)
Theorem pattern_matches_service_id_shorter
    (pattern shorter service_id : list ascii) :
  c_str shorter `prefix_of` c_str pattern ->
  pattern_matches_service_id pattern service_id = true ->
  pattern_matches_service_id shorter service_id = true.
Proof.
  unfold pattern_matches_service_id.
  rewrite !Z.eqb_eq, !strncmp_strlen_prefix, !strlen_c_str, !Nat2Z.id.
  intros [rest Hrest] Htake.
  apply (f_equal (take (length (c_str shorter)))) in Htake.
  rewrite take_take, Hrest, take_app_length in Htake.
  etrans; [|exact Htake]. f_equal. rewrite length_app. lia.
Qed.

Lemma pattern_matches_service_id_shorter_witness :
  pattern_matches_service_id (lit "ab") (lit "abcdefghij234567") = true.
Proof.
  apply (pattern_matches_service_id_shorter (lit "abc") (lit "ab")
           (lit "abcdefghij234567")).
  - exists (lit "c"). reflexivity.
  - vm_compute. reflexivity.
Defined.

(** ** Identifiers *)

Section Identifiers.

Context {RSA : Type}.
Variable i2d_RSAPublicKey : RSA -> option (list ascii).
Variable SHA1 : list ascii -> option (list ascii).

(** How [rend_get_service_id] fails, and that it has one way to return:
    a key that OpenSSL cannot encode fails the first assertion of
    [crypto_pk_get_digest], a digest that OpenSSL cannot compute fails
    its last, and a call that returns returns true, so that the callers'
    assertions on the truth value cannot fail. *)
Theorem rend_get_service_id_failures (buf0 : list ascii) (pk : RSA)
    (out : list ascii) :
  (i2d_RSAPublicKey pk = None ->
   rend_get_service_id i2d_RSAPublicKey SHA1 buf0 pk out
   = Abort assert_i2d_len_first)
  /\ (forall der, i2d_RSAPublicKey pk = Some der -> SHA1 der = None ->
        rend_get_service_id i2d_RSAPublicKey SHA1 buf0 pk out
        = Abort assert_crypto_digest)
  /\ (forall ok out',
        rend_get_service_id i2d_RSAPublicKey SHA1 buf0 pk out
        = Ret (ok, out') -> ok = true)
  /\ (forall ok digest,
        crypto_pk_get_digest i2d_RSAPublicKey SHA1 pk buf0
        = Ret (ok, digest) -> ok = true).
Proof.
  rewrite rend_get_service_id_spec. repeat split.
  - by intros ->.
  - by intros der -> ->.
  - intros ok out'.
    destruct (i2d_RSAPublicKey pk) as [der|]; [|done].
    destruct (SHA1 der) as [digest|]; [|done].
    destruct (base32_encode _ _ _ _); cbn [mbind outcome_bind]; [|done..].
    by intros [= <- _].
  - intros ok digest.
    unfold crypto_pk_get_digest, crypto_digest, i2d_RSAPublicKey_len.
    destruct (i2d_RSAPublicKey pk) as [der|]; [|done].
    rewrite (proj2 (Z.leb_le 0 (Z.of_nat (length der)))) by lia.
    cbn [assert mbind outcome_bind].
    destruct (SHA1 _); cbn [assert mbind outcome_bind]; [|done].
    by intros [= <- _].
Qed.

(** Two identifiers are the same string exactly when the digests they
    come from agree on their first 10 characters; what the local arrays
    of the callers held before the calls plays no part. *)
Theorem rend_get_service_id_same_iff (buf1 buf2 out1 out2 : list ascii)
    (pk1 pk2 : RSA) (der1 der2 digest1 digest2 : list ascii) :
  i2d_RSAPublicKey pk1 = Some der1 -> SHA1 der1 = Some digest1 ->
  i2d_RSAPublicKey pk2 = Some der2 -> SHA1 der2 = Some digest2 ->
  length digest1 = Z.to_nat DIGEST_LEN ->
  length digest2 = Z.to_nat DIGEST_LEN ->
  (17 <= length out1)%nat -> (17 <= length out2)%nat ->
  exists id1 id2 : list ascii,
    rend_get_service_id i2d_RSAPublicKey SHA1 buf1 pk1 out1 = Ret (true, id1)
    /\ rend_get_service_id i2d_RSAPublicKey SHA1 buf2 pk2 out2
       = Ret (true, id2)
    /\ (c_str id1 = c_str id2
        <-> take (Z.to_nat REND_SERVICE_ID_LEN) digest1
            = take (Z.to_nat REND_SERVICE_ID_LEN) digest2).
Proof.
  intros Hder1 Hdig1 Hder2 Hdig2 Hlen1 Hlen2 Hout1 Hout2.
  change (Z.to_nat DIGEST_LEN) with 20%nat in *.
  change (Z.to_nat REND_SERVICE_ID_LEN) with 10%nat.
  do 2 eexists.
  split; [by apply (rend_get_service_id_digest _ _ buf1 pk1 out1 der1)|].
  split; [by apply (rend_get_service_id_digest _ _ buf2 pk2 out2 der2)|].
  rewrite !c_str_app_NUL by apply window_chars_no_NUL. split.
  - apply window_chars_inj; rewrite length_take; lia.
  - by intros ->.
Qed.

End Identifiers.

Lemma rend_get_service_id_failures_witness :
  rend_get_service_id (RSA := list ascii)
    (fun pk => if decide (pk = []) then None else Some pk) (fun m => None)
    (replicate 20 NUL) [] (replicate 17 NUL)
  = Abort assert_i2d_len_first
  /\ rend_get_service_id (RSA := list ascii)
       (fun pk => if decide (pk = []) then None else Some pk) (fun m => None)
       (replicate 20 NUL) (lit "key") (replicate 17 NUL)
     = Abort assert_crypto_digest.
Proof.
  split.
  - by apply (rend_get_service_id_failures (RSA := list ascii)).
  - by apply (rend_get_service_id_failures (RSA := list ascii)
                _ _ _ (lit "key") _) with (lit "key").
Defined.

Lemma rend_get_service_id_same_iff_witness :
  exists id1 id2 : list ascii,
    rend_get_service_id (RSA := list ascii)
      (fun pk => Some pk) (fun m => Some (resize 20 NUL m))
      (replicate 20 "x"%char) (lit "0123456789a") (replicate 17 "x"%char)
    = Ret (true, id1)
    /\ rend_get_service_id (RSA := list ascii)
         (fun pk => Some pk) (fun m => Some (resize 20 NUL m))
         (replicate 20 "y"%char) (lit "0123456789b") (replicate 18 "y"%char)
       = Ret (true, id2)
    /\ c_str id1 = c_str id2.
Proof.
  destruct (rend_get_service_id_same_iff (RSA := list ascii)
              (fun pk => Some pk) (fun m => Some (resize 20 NUL m))
              (replicate 20 "x"%char) (replicate 20 "y"%char)
              (replicate 17 "x"%char) (replicate 18 "y"%char)
              (lit "0123456789a") (lit "0123456789b")
              (lit "0123456789a") (lit "0123456789b")
              (resize 20 NUL (lit "0123456789a"))
              (resize 20 NUL (lit "0123456789b")))
    as (id1 & id2 & H1 & H2 & Hiff).
  - reflexivity.
  - reflexivity.
  - reflexivity.
  - reflexivity.
  - vm_compute. reflexivity.
  - vm_compute. reflexivity.
  - vm_compute. lia.
  - vm_compute. lia.
  - exists id1, id2. split; [exact H1|]. split; [exact H2|].
    apply Hiff. vm_compute. reflexivity.
Defined.

(** ** Runs of the search *)





(** A pattern longer than the identifier does not match it. *)
Lemma pattern_longer_no_match (pattern service_id : list ascii) :
  strlen service_id < strlen pattern ->
  pattern_matches_service_id pattern service_id = false.
Proof.
  intros Hlen. apply not_true_iff_false. unfold pattern_matches_service_id.
  rewrite Z.eqb_eq, strncmp_strlen_prefix. intros Htake.
  apply (f_equal length) in Htake. rewrite length_take in Htake.
  rewrite !strlen_c_str in Hlen. lia.
Qed.

Section Runs.

Context {RSA : Type}.
Variable RSA_generate_key : nat -> option RSA.
Variable i2d_RSAPublicKey : RSA -> option (list ascii).
Variable SHA1 : list ascii -> option (list ascii).
Variable pattern : list ascii.
Variable buf0 : list ascii.
Context {FILE : Type}.
Variable mkdir : list ascii -> Z.
Variable malloc : Z -> option (list ascii).
Variable fopen : list ascii -> option FILE.
Variable PEM_write_RSAPrivateKey : FILE -> RSA -> Z.






End Runs.


Section Search_runs.

Context {RSA : Type}.
Variable RSA_generate_key : nat -> option RSA.
Variable i2d_RSAPublicKey : RSA -> option (list ascii).
Variable SHA1 : list ascii -> option (list ascii).
Variable pattern : list ascii.
Variable buf0 : list ascii.

(** A SHA-1 digest has [DIGEST_LEN] characters. *)
Hypothesis SHA1_length :
  forall m digest : list ascii,
    SHA1 m = Some digest -> length digest = Z.to_nat DIGEST_LEN.

(** The three ways a call of [rend_get_service_id] on an array of 17
    characters ends. *)
Lemma rend_get_service_id_cases (pk : RSA) (out : list ascii) :
  length out = 17%nat ->
  rend_get_service_id i2d_RSAPublicKey SHA1 buf0 pk out
  = Abort assert_i2d_len_first
  \/ rend_get_service_id i2d_RSAPublicKey SHA1 buf0 pk out
     = Abort assert_crypto_digest
  \/ exists out' : list ascii,
       rend_get_service_id i2d_RSAPublicKey SHA1 buf0 pk out
       = Ret (true, out')
       /\ length out' = 17%nat
       /\ length (c_str out') = 16%nat
       /\ identifier_of i2d_RSAPublicKey SHA1 pk = Some (c_str out').
Proof.
  intros Hout.
  destruct (i2d_RSAPublicKey pk) as [der|] eqn:Hder;
    [|left; by rewrite rend_get_service_id_spec, Hder].
  destruct (SHA1 der) as [digest|] eqn:Hdigest;
    [|right; left; by rewrite rend_get_service_id_spec, Hder, Hdigest].
  right. right. pose proof (SHA1_length _ _ Hdigest) as Hlen.
  eexists. split.
  { apply (rend_get_service_id_digest _ _ buf0 pk out der digest);
      (done || lia). }
  rewrite c_str_app_NUL by apply window_chars_no_NUL.
  rewrite length_app, !length_fmap, !length_seq. simpl.
  rewrite length_drop. repeat split; [lia|].
  unfold identifier_of.
  rewrite (rend_get_service_id_digest _ _ _ pk _ der digest)
    by (done || by vm_compute).
  by rewrite c_str_app_NUL by apply window_chars_no_NUL.
Qed.

(** The identifier of a key has 16 characters. *)
Lemma identifier_of_length (pk : RSA) (id : list ascii) :
  identifier_of i2d_RSAPublicKey SHA1 pk = Some id -> length id = 16%nat.
Proof.
  unfold identifier_of. intros Hid.
  destruct (i2d_RSAPublicKey pk) as [der|] eqn:Hder;
    [|by rewrite rend_get_service_id_spec, Hder in Hid].
  destruct (SHA1 der) as [digest|] eqn:Hdigest;
    [|by rewrite rend_get_service_id_spec, Hder, Hdigest in Hid].
  rewrite (rend_get_service_id_digest _ _ _ pk _ der digest) in Hid;
    [|done|done|by apply SHA1_length in Hdigest|by vm_compute].
  rewrite c_str_app_NUL in Hid by apply window_chars_no_NUL.
  injection Hid as Hid. by rewrite <- Hid.
Qed.

(** What a returning loop has done: it asked for [n + 1] keys, the last
    of which matches and is the key returned, and none before matches. *)
Lemma generate_service_loop_Ret (fuel : nat) :
  forall (service_id : list ascii) (w w' : world RSA) (pk : RSA),
    length service_id = 17%nat ->
    generate_service_loop RSA_generate_key i2d_RSAPublicKey SHA1
                          fuel buf0 pattern service_id w = Ret (pk, w') ->
    exists n : nat,
      w' = World (keys_generated w + S n) (exported w)
      /\ RSA_generate_key (keys_generated w + n) = Some pk
      /\ (exists id, identifier_of i2d_RSAPublicKey SHA1 pk = Some id
                     /\ pattern_matches_service_id pattern id = true)
      /\ (forall j, (j < n)%nat ->
            exists pk' id',
              RSA_generate_key (keys_generated w + j) = Some pk'
              /\ identifier_of i2d_RSAPublicKey SHA1 pk' = Some id'
              /\ pattern_matches_service_id pattern id' = false).
Proof.
  induction fuel as [|fuel IH]; intros service_id w w' pk Hsid; [done|].
  cbn [generate_service_loop].
  destruct (RSA_generate_key (keys_generated w)) as [pk0|] eqn:Hgen; [|done].
  destruct (rend_get_service_id_cases pk0 service_id Hsid)
    as [->|[->|(out' & -> & Hlen & _ & Hid)]]; [done..|].
  cbn [assert mbind outcome_bind].
  destruct (pattern_matches_service_id pattern out') eqn:Hmatch; cbn [negb].
  - intros [= <- <-]. exists 0%nat. cbn [keys_generated exported].
    rewrite Nat.add_0_r, Nat.add_1_r. repeat split; [done| |intros; lia].
    exists (c_str out'). by rewrite pattern_matches_service_id_c_str.
  - intros Hloop. apply IH in Hloop as (n & -> & Hpk & Hhit & Hmiss); [|done].
    cbn [keys_generated exported] in *. exists (S n). repeat split.
    + f_equal. lia.
    + rewrite <- Hpk. f_equal. lia.
    + done.
    + intros [|j] Hj.
      * exists pk0, (c_str out'). rewrite Nat.add_0_r.
        by rewrite pattern_matches_service_id_c_str.
      * destruct (Hmiss j ltac:(lia)) as (pk' & id' & Hg & Hi & Hm).
        exists pk', id'. repeat split; [|done..].
        rewrite <- Hg. f_equal. lia.
Qed.

(** After [n] keys that do not match, the loop is where it started, [n]
    keys later. *)
Lemma generate_service_loop_misses (n : nat) :
  forall (fuel : nat) (service_id : list ascii) (w : world RSA),
    length service_id = 17%nat ->
    (forall j, (j < n)%nat ->
       exists pk id,
         RSA_generate_key (keys_generated w + j) = Some pk
         /\ identifier_of i2d_RSAPublicKey SHA1 pk = Some id
         /\ pattern_matches_service_id pattern id = false) ->
    exists service_id' : list ascii,
      length service_id' = 17%nat
      /\ generate_service_loop RSA_generate_key i2d_RSAPublicKey SHA1
                               (n + fuel) buf0 pattern service_id w
         = generate_service_loop RSA_generate_key i2d_RSAPublicKey SHA1
                                 fuel buf0 pattern service_id'
                                 (World (keys_generated w + n) (exported w)).
Proof.
  induction n as [|n IH]; intros fuel service_id w Hsid Hmiss.
  - exists service_id. split; [done|]. destruct w as [kg exp].
    cbn [keys_generated exported]. by rewrite Nat.add_0_r.
  - destruct (Hmiss 0%nat ltac:(lia)) as (pk & id & Hgen & Hid & Hmatch).
    rewrite Nat.add_0_r in Hgen.
    destruct (rend_get_service_id_identifier _ _ SHA1_length _ _ Hid
                buf0 _ Hsid) as (out' & Hrend & Hlen & Hstr).
    destruct (IH fuel out' (World (S (keys_generated w)) (exported w)) Hlen)
      as (service_id' & Hlen' & Hloop).
    { intros j Hj. cbn [keys_generated].
      destruct (Hmiss (S j) ltac:(lia)) as (pk' & id' & Hg & Hi & Hm).
      exists pk', id'. repeat split; [|done..]. rewrite <- Hg. f_equal. lia. }
    exists service_id'. split; [done|].
    change (S n + fuel)%nat with (S (n + fuel)).
    cbn [generate_service_loop]. rewrite Hgen, Hrend.
    cbn [assert mbind outcome_bind].
    rewrite <- pattern_matches_service_id_c_str, Hstr, Hmatch. cbn [negb].
    rewrite Hloop. cbn [keys_generated exported].
    by replace (S (keys_generated w) + n)%nat
      with (keys_generated w + S n)%nat by lia.
Qed.

End Search_runs.

(** Whatever keys OpenSSL generates, a call of [generate_service] that
    returns has validated the pattern and exported exactly one key: the
    last one it asked for, whose identifier matches the pattern, while
    the identifier of every key it asked for before does not; and the
    call of [export_private_key] on that key has written it to a file. *)
Theorem generate_service_sound {RSA : Type}
    (RSA_generate_key : nat -> option RSA)
    (i2d_RSAPublicKey : RSA -> option (list ascii))
    (SHA1 : list ascii -> option (list ascii))
    {FILE : Type} (mkdir : list ascii -> Z)
    (malloc : Z -> option (list ascii)) (fopen : list ascii -> option FILE)
    (PEM_write_RSAPrivateKey : FILE -> RSA -> Z)
    (fuel : nat) (buf0 service_id0 pattern : list ascii)
    (w w' : world RSA) :
  (forall m digest : list ascii,
      SHA1 m = Some digest -> length digest = Z.to_nat DIGEST_LEN) ->
  length service_id0 = 17%nat ->
  generate_service RSA_generate_key i2d_RSAPublicKey SHA1
                   mkdir malloc fopen PEM_write_RSAPrivateKey
                   fuel buf0 service_id0 pattern w = Ret w' ->
  validate_pattern pattern = Ret tt
  /\ exists (n : nat) (pk : RSA),
       keys_generated w' = (keys_generated w + S n)%nat
       /\ exported w' = exported w ++ [(pk, pattern)]
       /\ RSA_generate_key (keys_generated w + n)%nat = Some pk
       /\ (exists id, identifier_of i2d_RSAPublicKey SHA1 pk = Some id
                      /\ pattern_matches_service_id pattern id = true)
       /\ (forall j, (j < n)%nat ->
             exists pk' id',
               RSA_generate_key (keys_generated w + j)%nat = Some pk'
               /\ identifier_of i2d_RSAPublicKey SHA1 pk' = Some id'
               /\ pattern_matches_service_id pattern id' = false)
       /\ (exists path pem_file,
             FileSystem.export_private_key RSA FILE mkdir malloc fopen
               PEM_write_RSAPrivateKey pk pattern
             = FileSystem.Written path pem_file).
Proof.
  intros HSHA1 Hsid. unfold generate_service.
  destruct (validate_pattern pattern) as [[]| | |]; [|done..].
  cbn [mbind outcome_bind].
  destruct (generate_service_loop _ _ _ _ _ _ _ _) as [[pk w1]| | |] eqn:Hl;
    cbn [mbind outcome_bind]; [|done..].
  destruct (FileSystem.export_private_key _ _ _ _ _ _ _ _)
    as [path pem_file| |] eqn:Hexp; [|done..].
  intros [= <-]. split; [done|].
  apply (generate_service_loop_Ret _ _ _ _ _ HSHA1) in Hl
    as (n & -> & Hpk & Hhit & Hmiss); [|done].
  exists n, pk. repeat split; [done..|]. by exists path, pem_file.
Qed.

Lemma generate_service_sound_witness :
  validate_pattern (lit "nn") = Ret tt
  /\ exists (n : nat) (pk : list ascii),
       3%nat = (0 + S n)%nat /\ [(lit "key", lit "nn")] = [] ++ [(pk, lit "nn")].
Proof.
  destruct (generate_service_sound (RSA := list ascii)
              (fun j => Some (nth j [lit "k0"; lit "k1"; lit "key"] []))
              (fun pk => Some pk) (fun m => Some (resize 20 NUL m))
              (FILE := nat) (fun path => 0) (fun size => Some [])
              (fun path => Some 7%nat) (fun file key => 1)
              3 (replicate 20 "x"%char) (replicate 17 "x"%char) (lit "nn")
              (World 0 []) (World 3 [(lit "key", lit "nn")]))
    as (Hvalid & n & pk & Hn & Hexp & _).
  - intros m digest [= <-]. apply length_resize.
  - reflexivity.
  - vm_compute. reflexivity.
  - split; [exact Hvalid|]. exists n, pk. split; [exact Hn|exact Hexp].
Defined.

(** Failures of OpenSSL end the run: when the first [n] keys do not
    match and the next call of [RSA_generate_key] returns NULL, or
    returns a key that OpenSSL cannot encode or digest,
    [generate_service] aborts on the assertion that checks the failed
    step, and exports nothing. *)
Theorem generate_service_key_failure {RSA : Type}
    (RSA_generate_key : nat -> option RSA)
    (i2d_RSAPublicKey : RSA -> option (list ascii))
    (SHA1 : list ascii -> option (list ascii))
    {FILE : Type} (mkdir : list ascii -> Z)
    (malloc : Z -> option (list ascii)) (fopen : list ascii -> option FILE)
    (PEM_write_RSAPrivateKey : FILE -> RSA -> Z)
    (n fuel : nat) (buf0 service_id0 pattern : list ascii) (w : world RSA) :
  (forall m digest : list ascii,
      SHA1 m = Some digest -> length digest = Z.to_nat DIGEST_LEN) ->
  validate_pattern pattern = Ret tt ->
  length service_id0 = 17%nat ->
  (forall j, (j < n)%nat ->
     exists pk id,
       RSA_generate_key (keys_generated w + j)%nat = Some pk
       /\ identifier_of i2d_RSAPublicKey SHA1 pk = Some id
       /\ pattern_matches_service_id pattern id = false) ->
  (n < fuel)%nat ->
  (RSA_generate_key (keys_generated w + n)%nat = None ->
   generate_service RSA_generate_key i2d_RSAPublicKey SHA1
                    mkdir malloc fopen PEM_write_RSAPrivateKey
                    fuel buf0 service_id0 pattern w
   = Abort assert_private_key_not_null)
  /\ (forall pk,
        RSA_generate_key (keys_generated w + n)%nat = Some pk ->
        i2d_RSAPublicKey pk = None ->
        generate_service RSA_generate_key i2d_RSAPublicKey SHA1
                         mkdir malloc fopen PEM_write_RSAPrivateKey
                         fuel buf0 service_id0 pattern w
        = Abort assert_i2d_len_first)
  /\ (forall pk der,
        RSA_generate_key (keys_generated w + n)%nat = Some pk ->
        i2d_RSAPublicKey pk = Some der -> SHA1 der = None ->
        generate_service RSA_generate_key i2d_RSAPublicKey SHA1
                         mkdir malloc fopen PEM_write_RSAPrivateKey
                         fuel buf0 service_id0 pattern w
        = Abort assert_crypto_digest).
Proof.
  intros HSHA1 Hvalid Hsid Hmiss Hfuel.
  destruct (generate_service_loop_misses RSA_generate_key i2d_RSAPublicKey
              SHA1 pattern buf0 HSHA1 n (fuel - n) service_id0 w Hsid Hmiss)
    as (service_id' & Hsid' & Hloop).
  replace (n + (fuel - n))%nat with fuel in Hloop by lia.
  unfold generate_service. rewrite Hvalid, Hloop. cbn [mbind outcome_bind].
  destruct (fuel - n)%nat as [|fuel'] eqn:Hf; [lia|].
  cbn [generate_service_loop keys_generated exported].
  repeat split.
  - by intros ->.
  - intros pk -> Hder. by rewrite rend_get_service_id_spec, Hder.
  - intros pk der -> Hder Hdigest.
    by rewrite rend_get_service_id_spec, Hder, Hdigest.
Qed.

Lemma generate_service_key_failure_witness :
  generate_service (RSA := list ascii) (FILE := nat)
    (fun j => nth j [Some (lit "k0"); Some (lit "k1")] None)
    (fun pk => Some pk) (fun m => Some (resize 20 NUL m))
    (fun path => 0) (fun size => Some []) (fun path => Some 7%nat)
    (fun file key => 1)
    5 (replicate 20 "x"%char) (replicate 17 "x"%char) (lit "nn") (World 0 [])
  = Abort assert_private_key_not_null.
Proof.
  apply (generate_service_key_failure (RSA := list ascii) (FILE := nat)
           (fun j => nth j [Some (lit "k0"); Some (lit "k1")] None)
           (fun pk => Some pk) (fun m => Some (resize 20 NUL m))
           (fun path => 0) (fun size => Some []) (fun path => Some 7%nat)
           (fun file key => 1)
           2 5 (replicate 20 "x"%char) (replicate 17 "x"%char) (lit "nn")
           (World 0 [])).
  - intros m digest [= <-]. apply length_resize.
  - vm_compute. reflexivity.
  - reflexivity.
  - intros j Hj.
    destruct j as [|[|j]];
      [eexists _, _; repeat split; vm_compute; reflexivity..|lia].
  - lia.
  - reflexivity.
Defined.

(** Why the length of the pattern is checked: entered with a pattern of
    more than 16 characters, the loop of [generate_service] finds no
    match among identifiers of 16 characters and does not end, however
    many keys it is given. *)
Theorem generate_service_loop_too_long_never_ends {RSA : Type}
    (RSA_generate_key : nat -> option RSA)
    (i2d_RSAPublicKey : RSA -> option (list ascii))
    (SHA1 : list ascii -> option (list ascii))
    (buf0 pattern : list ascii) :
  (forall m digest : list ascii,
      SHA1 m = Some digest -> length digest = Z.to_nat DIGEST_LEN) ->
  pattern_is_not_too_long pattern = false ->
  (forall j, exists pk id,
      RSA_generate_key j = Some pk
      /\ identifier_of i2d_RSAPublicKey SHA1 pk = Some id) ->
  forall (fuel : nat) (service_id : list ascii) (w : world RSA),
    length service_id = 17%nat ->
    generate_service_loop RSA_generate_key i2d_RSAPublicKey SHA1
                          fuel buf0 pattern service_id w = Fuel.
Proof.
  intros HSHA1 Hlong Hkeys.
  unfold pattern_is_not_too_long, REND_SERVICE_ID_LEN_BASE32 in Hlong.
  apply Z.leb_gt in Hlong.
  induction fuel as [|fuel IH]; intros service_id w Hsid; [done|].
  cbn [generate_service_loop].
  destruct (Hkeys (keys_generated w)) as (pk & id & -> & Hid).
  destruct (rend_get_service_id_identifier _ _ HSHA1 _ _ Hid buf0 _ Hsid)
    as (out' & -> & Hlen & Hstr).
  cbn [assert mbind outcome_bind].
  rewrite pattern_longer_no_match.
  - cbn [negb]. by apply IH.
  - rewrite strlen_c_str, Hstr.
    rewrite (identifier_of_length _ _ HSHA1 _ _ Hid). lia.
Qed.

Lemma generate_service_loop_too_long_never_ends_witness :
  generate_service_loop (RSA := list ascii)
    (fun j => Some (lit "key")) (fun pk => Some pk)
    (fun m => Some (resize 20 NUL m))
    4 (replicate 20 "x"%char) (lit "nnsxsaaaaaaaaaaaa")
    (replicate 17 "x"%char) (World 0 [])
  = Fuel.
Proof.
  apply (generate_service_loop_too_long_never_ends (RSA := list ascii)
           (fun j => Some (lit "key")) (fun pk => Some pk)
           (fun m => Some (resize 20 NUL m))
           (replicate 20 "x"%char) (lit "nnsxsaaaaaaaaaaaa")).
  - intros m digest [= <-]. apply length_resize.
  - vm_compute. reflexivity.
  - intros j. exists (lit "key"), (lit "nnsxsaaaaaaaaaaa").
    split; vm_compute; reflexivity.
  - reflexivity.
Defined.

(** The empty pattern matches at once: the loop of [generate_service]
    ends with the first key it asks for, whatever its identifier, and
    [export_private_key] is called on this key with the empty string as
    the name of the directory; where [mkdir] refuses that name, the run
    fails the assertion of line 145 and no key is exported. *)
Theorem generate_service_empty_pattern {RSA : Type}
    (RSA_generate_key : nat -> option RSA)
    (i2d_RSAPublicKey : RSA -> option (list ascii))
    (SHA1 : list ascii -> option (list ascii))
    {FILE : Type} (mkdir : list ascii -> Z)
    (malloc : Z -> option (list ascii)) (fopen : list ascii -> option FILE)
    (PEM_write_RSAPrivateKey : FILE -> RSA -> Z)
    (fuel : nat) (buf0 service_id0 : list ascii) (w : world RSA)
    (pk : RSA) (id : list ascii) :
  (forall m digest : list ascii,
      SHA1 m = Some digest -> length digest = Z.to_nat DIGEST_LEN) ->
  length service_id0 = 17%nat ->
  RSA_generate_key (keys_generated w) = Some pk ->
  identifier_of i2d_RSAPublicKey SHA1 pk = Some id ->
  (0 < fuel)%nat ->
  generate_service_loop RSA_generate_key i2d_RSAPublicKey SHA1
                        fuel buf0 [] service_id0 w
  = Ret (pk, World (keys_generated w + 1)%nat (exported w))
  /\ (mkdir [] <> 0 ->
      generate_service RSA_generate_key i2d_RSAPublicKey SHA1
                       mkdir malloc fopen PEM_write_RSAPrivateKey
                       fuel buf0 service_id0 [] w
      = Abort assert_mkdir).
Proof.
  intros HSHA1 Hsid Hgen Hid Hfuel.
  assert (Hloop :
    generate_service_loop RSA_generate_key i2d_RSAPublicKey SHA1
                          fuel buf0 [] service_id0 w
    = Ret (pk, World (keys_generated w + 1)%nat (exported w))).
  { apply (generate_service_loop_first_match _ _ _ HSHA1 [] buf0 0
             (fun _ => pk)); [done| | |by exists id|done].
    - intros j Hj. assert (j = 0)%nat as -> by lia. by rewrite Nat.add_0_r.
    - intros j Hj. lia. }
  split; [exact Hloop|]. intros Hmkdir. unfold generate_service.
  change (validate_pattern []) with (@Ret unit tt).
  cbn [mbind outcome_bind]. rewrite Hloop. cbn [mbind outcome_bind].
  unfold FileSystem.export_private_key. change (c_str []) with (@nil ascii).
  by destruct (Z.eqb_spec (mkdir []) 0).
Qed.

Lemma generate_service_empty_pattern_witness :
  generate_service_loop (RSA := list ascii)
    (fun j => Some (lit "key")) (fun pk => Some pk)
    (fun m => Some (resize 20 NUL m))
    1 (replicate 20 "x"%char) [] (replicate 17 "x"%char) (World 0 [])
  = Ret (lit "key", World 1 [])
  /\ generate_service (RSA := list ascii) (FILE := nat)
       (fun j => Some (lit "key")) (fun pk => Some pk)
       (fun m => Some (resize 20 NUL m))
       (fun path => if decide (path = []) then -1 else 0)
       (fun size => Some []) (fun path => Some 7%nat) (fun file key => 1)
       1 (replicate 20 "x"%char) (replicate 17 "x"%char) [] (World 0 [])
     = Abort assert_mkdir.
Proof.
  destruct (generate_service_empty_pattern (RSA := list ascii) (FILE := nat)
              (fun j => Some (lit "key")) (fun pk => Some pk)
              (fun m => Some (resize 20 NUL m))
              (fun path => if decide (path = []) then -1 else 0)
              (fun size => Some []) (fun path => Some 7%nat)
              (fun file key => 1)
              1 (replicate 20 "x"%char) (replicate 17 "x"%char) (World 0 [])
              (lit "key") (lit "nnsxsaaaaaaaaaaa")) as [Hloop Habort].
  - intros m digest [= <-]. apply length_resize.
  - reflexivity.
  - reflexivity.
  - vm_compute. reflexivity.
  - lia.
  - split; [exact Hloop|]. apply Habort. vm_compute. discriminate.
Defined.

(** A run of [main] that returns exits with status 0; with an argument
    count other than 2 it has done nothing, and with exactly one argument
    it has validated this argument as a pattern and exported, under it,
    one key whose identifier matches it. *)
Theorem main_returns {RSA : Type}
    (RSA_generate_key : nat -> option RSA)
    (i2d_RSAPublicKey : RSA -> option (list ascii))
    (SHA1 : list ascii -> option (list ascii))
    {FILE : Type} (mkdir : list ascii -> Z)
    (malloc : Z -> option (list ascii)) (fopen : list ascii -> option FILE)
    (PEM_write_RSAPrivateKey : FILE -> RSA -> Z)
    (fuel : nat) (buf0 service_id0 : list ascii)
    (argc : Z) (argv : list (list ascii)) (w w' : world RSA) (status : Z) :
  (forall m digest : list ascii,
      SHA1 m = Some digest -> length digest = Z.to_nat DIGEST_LEN) ->
  length service_id0 = 17%nat ->
  main RSA_generate_key i2d_RSAPublicKey SHA1
       mkdir malloc fopen PEM_write_RSAPrivateKey
       fuel buf0 service_id0 argc argv w
  = Ret (status, w') ->
  status = 0
  /\ ((argc <> 2 /\ w' = w)
      \/ (argc = 2
          /\ exists (pattern : list ascii) (pk : RSA) (id : list ascii),
               argv !! 1%nat = Some pattern
               /\ validate_pattern pattern = Ret tt
               /\ exported w' = exported w ++ [(pk, pattern)]
               /\ identifier_of i2d_RSAPublicKey SHA1 pk = Some id
               /\ pattern_matches_service_id pattern id = true)).
Proof.
  intros HSHA1 Hsid. unfold main.
  destruct (Z.eqb_spec argc 2) as [Hargc|Hargc];
    [|intros [= <- <-]; split; [done|by left]].
  destruct (argv !! 1%nat) as [pattern|]; [|done].
  unfold generate_service.
  destruct (validate_pattern pattern) as [[]| | |] eqn:Hvalid; [|done..].
  cbn [mbind outcome_bind].
  destruct (generate_service_loop _ _ _ _ _ _ _ _) as [[pk w1]| | |] eqn:Hl;
    cbn [mbind outcome_bind]; [|done..].
  destruct (FileSystem.export_private_key _ _ _ _ _ _ _ _)
    as [path pem_file| |]; cbn [mbind outcome_bind]; [|done..].
  intros [= <- <-]. split; [done|]. right. split; [done|].
  apply (generate_service_loop_Ret _ _ _ _ _ HSHA1) in Hl
    as (n & -> & _ & (id & Hid & Hmatch) & _); [|done].
  exists pattern, pk, id. by cbn [exported].
Qed.

Lemma main_returns_witness :
  (0 = 0)
  /\ (((2 <> 2) /\ World 3 [(lit "key", lit "nn")] = World 0 [])
      \/ (2 = 2
          /\ exists (pattern pk id : list ascii),
               [lit "oniongen"; lit "nn"] !! 1%nat = Some pattern
               /\ validate_pattern pattern = Ret tt
               /\ [(lit "key", lit "nn")] = [] ++ [(pk, pattern)]
               /\ identifier_of (RSA := list ascii) (fun pk => Some pk)
                    (fun m => Some (resize 20 NUL m)) pk = Some id
               /\ pattern_matches_service_id pattern id = true)).
Proof.
  apply (main_returns (RSA := list ascii) (FILE := nat)
           (fun j => Some (nth j [lit "k0"; lit "k1"; lit "key"] []))
           (fun pk => Some pk) (fun m => Some (resize 20 NUL m))
           (fun path => 0) (fun size => Some []) (fun path => Some 7%nat)
           (fun file key => 1)
           3 (replicate 20 "x"%char) (replicate 17 "x"%char)
           2 [lit "oniongen"; lit "nn"] (World 0 [])
           (World 3 [(lit "key", lit "nn")]) 0).
  - intros m digest [= <-]. apply length_resize.
  - reflexivity.
  - vm_compute. reflexivity.
Defined.

(** ** Exporting the key to a file *)

Lemma strlen_app_NUL (s rest : list ascii) :
  NUL ∉ s -> strlen (s ++ NUL :: rest) = Z.of_nat (length s).
Proof. intros H. by rewrite strlen_c_str, c_str_app_NUL. Qed.

(** [strcpy] into an array with room for the string and its terminator. *)
Lemma strcpy_fits (dest src : list ascii) :
  (length (c_str src) < length dest)%nat ->
  strcpy dest src
  = Ret (c_str src ++ NUL :: drop (S (length (c_str src))) dest).
Proof.
  intros Hlen. unfold strcpy. rewrite length_app.
  change (length [NUL]) with 1%nat.
  replace (length (c_str src) + 1)%nat with (S (length (c_str src))) by lia.
  rewrite (proj2 (Nat.leb_le _ _)) by lia.
  by rewrite <- app_assoc.
Qed.

(** [strcat] onto an array that holds the string [s] and has room for
    the characters of [src] after it. *)
Lemma strcat_fits (s rest src : list ascii) :
  NUL ∉ s -> (length (c_str src) <= length rest)%nat ->
  strcat (s ++ NUL :: rest) src
  = Ret (s ++ c_str src ++ NUL :: drop (length (c_str src)) rest).
Proof.
  intros Hs Hlen. unfold strcat.
  rewrite strlen_app_NUL, Nat2Z.id by done.
  rewrite !length_app. change (length [NUL]) with 1%nat.
  change (length (NUL :: rest)) with (S (length rest)).
  rewrite (proj2 (Nat.ltb_lt _ _)), (proj2 (Nat.leb_le _ _)) by lia.
  cbn [andb]. rewrite take_app_length, drop_app_ge by lia.
  replace (length s + (length (c_str src) + 1) - length s)%nat
    with (S (length (c_str src))) by lia.
  by rewrite <- app_assoc.
Qed.

(** The block [export_private_key] allocates, of [strlen pattern + 13]
    characters, has room for the path it builds: the copy and the
    concatenation stay inside it, whatever the pattern, and the file that
    is opened is "private_key" in the directory named by the pattern,
    which [mkdir] has created. *)
Theorem export_private_key_path (RSA FILE : Type)
    (mkdir : list ascii -> Z) (malloc : Z -> option (list ascii))
    (fopen : list ascii -> option FILE)
    (PEM_write_RSAPrivateKey : FILE -> RSA -> Z)
    (private_key : RSA) (pattern : list ascii) :
  strlen pattern + 13 < 2 ^ 64 ->
  FileSystem.export_private_key RSA FILE mkdir malloc fopen
    PEM_write_RSAPrivateKey private_key pattern
  <> FileSystem.OutOfBounds
  /\ forall (path : list ascii) (pem_file : FILE),
       FileSystem.export_private_key RSA FILE mkdir malloc fopen
         PEM_write_RSAPrivateKey private_key pattern
       = FileSystem.Written path pem_file ->
       path = c_str pattern ++ lit "/private_key"
       /\ mkdir (c_str pattern) = 0
       /\ fopen path = Some pem_file
       /\ PEM_write_RSAPrivateKey pem_file private_key = 1.
Proof.
  intros Hsize. unfold FileSystem.export_private_key.
  pose proof (strlen_nonneg pattern) as Hnonneg.
  assert (Hsz : size_t (strlen pattern + 13) = strlen pattern + 13)
    by (unfold size_t; rewrite Z.mod_small; lia).
  rewrite Hsz.
  destruct (Z.eqb_spec (mkdir (c_str pattern)) 0) as [Hmkdir|_];
    cbn [negb]; [|done].
  destruct (malloc _) as [block|]; [|done].
  set (file_relpath := resize _ NUL block).
  assert (Hlen : length file_relpath = (length (c_str pattern) + 13)%nat).
  { unfold file_relpath. rewrite length_resize, strlen_c_str. lia. }
  rewrite strcpy_fits by lia. cbn [mbind outcome_bind].
  assert (Hpath : NUL ∉ lit "/private_key").
  { change (lit "/private_key") with (c_str (lit "/private_key")).
    apply c_str_no_NUL. }
  rewrite strcat_fits; [|apply c_str_no_NUL|].
  2: { rewrite length_drop, Hlen.
       change (length (c_str (lit "/private_key"))) with 12%nat. lia. }
  rewrite app_assoc, c_str_app_NUL
    by (rewrite not_elem_of_app; split; [apply c_str_no_NUL|exact Hpath]).
  change (c_str (lit "/private_key")) with (lit "/private_key").
  destruct (fopen _) as [pem_file|] eqn:Hfopen; [|done].
  destruct (Z.eqb_spec (PEM_write_RSAPrivateKey pem_file private_key) 1)
    as [Hpem|_]; cbn [negb]; [|done].
  split; [done|]. by intros path f [= <- <-].
Qed.

Lemma export_private_key_path_witness :
  FileSystem.export_private_key (list ascii) nat
    (fun path => 0) (fun size => Some []) (fun path => Some 7%nat)
    (fun file key => 1) (lit "key") (lit "abc")
  <> FileSystem.OutOfBounds.
Proof.
  apply (export_private_key_path (list ascii) nat
           (fun path => 0) (fun size => Some []) (fun path => Some 7%nat)
           (fun file key => 1) (lit "key") (lit "abc")).
  vm_compute. reflexivity.
Defined.

Example export_private_key_abc :
  FileSystem.export_private_key (list ascii) nat
    (fun path => 0) (fun size => Some (lit "junk")) (fun path => Some 7%nat)
    (fun file key => 1) (lit "key") (lit "abc")
  = FileSystem.Written (lit "abc/private_key") 7%nat.
Proof. vm_compute. reflexivity. Qed.

(** ** Patterns that can match *)

(** The identifier of a key is made of characters of the alphabet. *)
Lemma identifier_of_alphabet {RSA : Type}
    (i2d_RSAPublicKey : RSA -> option (list ascii))
    (SHA1 : list ascii -> option (list ascii))
    (pk : RSA) (id : list ascii) :
  (forall m digest : list ascii,
      SHA1 m = Some digest -> length digest = Z.to_nat DIGEST_LEN) ->
  identifier_of i2d_RSAPublicKey SHA1 pk = Some id ->
  Forall (fun c => c <> NUL /\ c ∈ BASE32_CHARS) id.
Proof.
  intros HSHA1. unfold identifier_of. intros Hid.
  destruct (i2d_RSAPublicKey pk) as [der|] eqn:Hder;
    [|by rewrite rend_get_service_id_spec, Hder in Hid].
  destruct (SHA1 der) as [digest|] eqn:Hdigest;
    [|by rewrite rend_get_service_id_spec, Hder, Hdigest in Hid].
  rewrite (rend_get_service_id_digest _ _ _ pk _ der digest) in Hid;
    [|done|done|by apply HSHA1 in Hdigest|by vm_compute].
  rewrite c_str_app_NUL in Hid by apply window_chars_no_NUL.
  assert (Hchars : id = window_char (take 10 digest) <$> seq 0 16)
    by (by injection Hid).
  rewrite Hchars.
  eapply Forall_impl; [apply window_chars_base32|].
  by intros c (Hnul & _ & Hc).
Qed.

(** Only patterns written in the alphabet can be found: when the
    identifier of a key matches a pattern, every character of the pattern
    is one of [abcdefghijklmnopqrstuvwxyz234567]. *)
Theorem pattern_matches_identifier_alphabet {RSA : Type}
    (i2d_RSAPublicKey : RSA -> option (list ascii))
    (SHA1 : list ascii -> option (list ascii))
    (pk : RSA) (id pattern : list ascii) :
  (forall m digest : list ascii,
      SHA1 m = Some digest -> length digest = Z.to_nat DIGEST_LEN) ->
  identifier_of i2d_RSAPublicKey SHA1 pk = Some id ->
  pattern_matches_service_id pattern id = true ->
  Forall (fun c => c ∈ BASE32_CHARS) (c_str pattern).
Proof.
  intros HSHA1 Hid Hmatch.
  pose proof (identifier_of_alphabet _ _ _ _ HSHA1 Hid) as Hall.
  unfold pattern_matches_service_id in Hmatch.
  rewrite Z.eqb_eq, strncmp_strlen_prefix in Hmatch.
  rewrite c_str_id in Hmatch.
  - rewrite <- Hmatch. apply Forall_take.
    eapply Forall_impl; [exact Hall|]. by intros c [_ Hc].
  - intros Hnul. rewrite Forall_forall in Hall. by destruct (Hall _ Hnul).
Qed.

Lemma pattern_matches_identifier_alphabet_witness :
  Forall (fun c => c ∈ BASE32_CHARS) (c_str (lit "nnsx")).
Proof.
  apply (pattern_matches_identifier_alphabet (RSA := list ascii)
           (fun pk => Some pk) (fun m => Some (resize 20 NUL m))
           (lit "key") (lit "nnsxsaaaaaaaaaaa") (lit "nnsx")).
  - intros m digest [= <-]. apply length_resize.
  - vm_compute. reflexivity.
  - vm_compute. reflexivity.
Defined.
